(** * Personal finance manager (src/main.py): model and verified properties

    The program keeps a list of expenses in a CSV file and offers menu
    flows to add, edit, search and summarise them.  This file embeds the
    functions of [src/main.py] and proves (or refutes, on concrete inputs)
    the properties stated about them.

    Conventions of the embedding.
    - A Python [str] is a list of characters.  Characters are the 256
      code points of Latin-1 (Rocq's [ascii]); the library functions
      modelled below ([str.strip], [str.lower], [float], [strptime]) are
      given their behaviour on exactly those code points.
    - A Python [float] is a binary64 number: Rocq's primitive [float], with
      the IEEE operations of [PrimFloat].
    - A raised exception is [None] in an [option] result.
    - The CSV file is the sequence of rows that [csv.reader] yields from it
      and that [csv.writer.writerow] appends to it; [None] is the absent
      file.  Failures of the file system (the [except] branches that only
      print a message) and the text printed on the screen are not modelled. *)

From Stdlib Require Import ZArith NArith Bool Ascii String Floats List Lia.
From Stdlib Require Import Sorted Permutation.
Import ListNotations.

(* Decimal literals such as 0.1 denote the nearest binary64 number, as in
   Python. *)
#[local] Set Warnings "-inexact-float".

Local Open Scope Z_scope.

(* ================================================================= *)
(** ** Strings *)

Definition str := list ascii.

(** A literal of the source. *)
Definition lit (s : string) : str := list_ascii_of_string s.
Arguments lit s%_string.

Definition code (c : ascii) : Z := Z.of_N (N_of_ascii c).

Definition between (lo hi : Z) (c : ascii) : bool :=
  (lo <=? code c) && (code c <=? hi).

(** [str.isspace] on one character: the Unicode white space below 256. *)
Definition isspace (c : ascii) : bool :=
  between 9 13 c || between 28 32 c || (code c =? 133) || (code c =? 160).

(** C's [Py_ISSPACE]: the ASCII white space of the C locale. *)
Definition Py_ISSPACE (c : ascii) : bool :=
  between 9 13 c || (code c =? 32).

Definition is_digit (c : ascii) : bool := between 48 57 c.

Definition digit_val (c : ascii) : Z := code c - 48.

Definition digit_char (d : Z) : ascii := ascii_of_N (Z.to_N (48 + d)).

(** [str.lower] on one character: A-Z and the capital letters of Latin-1
    (U+00C0..U+00DE without the multiplication sign U+00D7). *)
Definition lower_char (c : ascii) : ascii :=
  if between 65 90 c || (between 192 222 c && negb (code c =? 215))
  then ascii_of_N (Z.to_N (code c + 32))
  else c.

Definition lower (s : str) : str := map lower_char s.

Fixpoint lstrip_with (sp : ascii -> bool) (s : str) : str :=
  match s with
  | c :: s' => if sp c then lstrip_with sp s' else s
  | [] => []
  end.

Definition strip_with (sp : ascii -> bool) (s : str) : str :=
  rev (lstrip_with sp (rev (lstrip_with sp s))).

(** [s.strip()] *)
Definition strip (s : str) : str := strip_with isspace s.

Fixpoint str_eqb (a b : str) : bool :=
  match a, b with
  | [], [] => true
  | x :: a', y :: b' => Ascii.eqb x y && str_eqb a' b'
  | _, _ => false
  end.

(** [x in l] for a list of strings. *)
Definition str_in (x : str) (l : list str) : bool := existsb (str_eqb x) l.

Fixpoint starts_with (q s : str) : bool :=
  match q, s with
  | [], _ => true
  | x :: q', y :: s' => Ascii.eqb x y && starts_with q' s'
  | _ :: _, [] => false
  end.

(** [q in s] for strings: [q] occurs in [s] as a contiguous run. *)
Fixpoint contains (q s : str) : bool :=
  starts_with q s ||
  match s with
  | [] => false
  | _ :: s' => contains q s'
  end.

(** The leading run of decimal digits, and what follows it. *)
Fixpoint span_digits (s : str) : str * str :=
  match s with
  | c :: s' =>
      if is_digit c then let (ds, r) := span_digits s' in (c :: ds, r)
      else ([], s)
  | [] => ([], [])
  end.

(** [int(ds)] for a run of decimal digits. *)
Definition digits_value (ds : str) : Z :=
  fold_left (fun acc c => 10 * acc + digit_val c) ds 0.

Fixpoint decimal_digits (fuel : nat) (n : Z) : str :=
  match fuel with
  | O => [digit_char n]
  | S f =>
      if n <? 10 then [digit_char n]
      else decimal_digits f (n / 10) ++ [digit_char (n mod 10)]
  end.

(** The decimal numeral of a natural number, without leading zeros. *)
Definition decimal (n : Z) : str := decimal_digits (Z.to_nat (Z.log2 n)) n.

(* ================================================================= *)
(** ** Floating-point numbers: [float(s)] and [format(x, ".2f")] *)

(** The binary64 number nearest to [(-1)^neg * d * 10^e] (ties to even),
    as CPython's correctly rounded [strtod] returns it: an overflow is an
    infinity, an underflow a signed zero. *)
Definition decimal_to_float (neg : bool) (d e : Z) : float :=
  match (d * 10 ^ Z.max e 0)%Z, (10 ^ Z.max (- e) 0)%Z with
  | Zpos num, Zpos den =>
      SF2Prim (SFdiv prec emax (S754_finite neg num 0%Z) (S754_finite false den 0%Z))
  | _, _ => SF2Prim (S754_zero neg)
  end.

Definition is_sign (c : ascii) : bool := (code c =? 43) || (code c =? 45).
Definition is_minus (c : ascii) : bool := code c =? 45.

(** An optional sign: whether it is a minus, and the rest. *)
Definition split_sign (s : str) : bool * str :=
  match s with
  | c :: s' => if is_sign c then (is_minus c, s') else (false, s)
  | [] => (false, [])
  end.

(** The exponent part at the head of [s], when there is one: its value
    and the rest.  An [e] that no digit follows is not an exponent. *)
Definition parse_exponent (s : str) : option (Z * str) :=
  match s with
  | c :: s1 =>
      if (code c =? 101) || (code c =? 69) then
        let (neg, s2) := split_sign s1 in
        match span_digits s2 with
        | ([], _) => None
        | (ds, r) => Some (if neg then - digits_value ds else digits_value ds, r)
        end
      else None
  | [] => None
  end.

(** [_Py_dg_strtod]: the longest decimal numeral at the head of [s], its
    value and the rest; [None] when [s] does not start with a numeral. *)
Definition strtod (s : str) : option (float * str) :=
  let (neg, s1) := split_sign s in
  let (ip, s2) := span_digits s1 in
  let (fp, s3) :=
    match s2 with
    | c :: s2' => if code c =? 46 then span_digits s2' else ([], s2)
    | [] => ([], s2)
    end in
  match ip ++ fp with
  | [] => None
  | ds =>
      let (ex, s4) :=
        match parse_exponent s3 with
        | Some (x, r) => (x, r)
        | None => (0, s3)
        end in
      Some (decimal_to_float neg (digits_value ds) (ex - Z.of_nat (length fp))%Z, s4)
  end.

(** C's [Py_TOLOWER]: ASCII letters only. *)
Definition Py_TOLOWER (c : ascii) : ascii :=
  if between 65 90 c then ascii_of_N (Z.to_N (code c + 32)) else c.

(** [case_insensitive_match]: the rest of [s] after the lower-case word
    [t], when [s] starts with [t] in any case. *)
Fixpoint case_insensitive_match (s t : str) : option str :=
  match t with
  | [] => Some s
  | y :: t' =>
      match s with
      | x :: s' =>
          if Ascii.eqb (Py_TOLOWER x) y then case_insensitive_match s' t'
          else None
      | [] => None
      end
  end.

(** [_Py_parse_inf_or_nan]: [inf], [infinity] or [nan] in any case, after
    an optional sign.  (Rocq's floats have one NaN; the sign bit that
    CPython gives [-nan] is not observable by this program.) *)
Definition parse_inf_or_nan (s : str) : option (float * str) :=
  let (neg, s1) := split_sign s in
  match case_insensitive_match s1 (lit "inf") with
  | Some s2 =>
      let s3 :=
        match case_insensitive_match s2 (lit "inity") with
        | Some r => r
        | None => s2
        end in
      Some (if neg then neg_infinity else infinity, s3)
  | None =>
      match case_insensitive_match s1 (lit "nan") with
      | Some s2 => Some (nan, s2)
      | None => None
      end
  end.

(** [_PyOS_ascii_strtod]: a numeral, or else [inf]/[nan]. *)
Definition ascii_strtod (s : str) : option (float * str) :=
  match strtod s with
  | Some r => Some r
  | None => parse_inf_or_nan s
  end.

(** [_PyUnicode_TransformDecimalAndSpaceToASCII]: a string that is not
    pure ASCII has its non-ASCII white space replaced by a space and is
    cut at the first other character from 127 on, which becomes [?]. *)
Fixpoint transform_space (s : str) : str :=
  match s with
  | [] => []
  | c :: s' =>
      if code c <? 127 then c :: transform_space s'
      else if isspace c then " "%char :: transform_space s'
      else ["?"%char]
  end.

Definition TransformDecimalAndSpaceToASCII (s : str) : str :=
  if forallb (fun c => code c <? 128) s then s else transform_space s.

Definition is_underscore (c : ascii) : bool := code c =? 95.

(** The loop of [_Py_string_to_number_with_underscores]: an underscore
    is dropped when it stands between two digits and is an error
    anywhere else; [prev] is the character before [s]. *)
Fixpoint drop_underscores (prev : ascii) (s : str) : option str :=
  match s with
  | [] => if is_underscore prev then None else Some []
  | c :: s' =>
      if is_underscore c then
        if is_digit prev then drop_underscores c s' else None
      else if is_underscore prev && negb (is_digit c) then None
      else option_map (cons c) (drop_underscores c s')
  end.

(** [float_from_string_inner]: strip C white space, then the whole of
    what is left must be one numeral. *)
Definition float_from_string_inner (s : str) : option float :=
  match strip_with Py_ISSPACE s with
  | [] => None
  | t =>
      match ascii_strtod t with
      | Some (x, []) => Some x
      | _ => None
      end
  end.

(** [float(s)] for a string [s]; [None] is [ValueError]. *)
Definition py_float (s : str) : option float :=
  let t := TransformDecimalAndSpaceToASCII s in
  if existsb is_underscore t then
    match drop_underscores Ascii.zero t with
    | Some u => float_from_string_inner u
    | None => None
    end
  else float_from_string_inner t.

(** The integer nearest to [m * 2^e * 100], ties to even: the amount in
    hundredths that [format(x, ".2f")] prints for [x = m * 2^e]. *)
Definition round_hundredths (m : positive) (e : Z) : Z :=
  if 0 <=? e then Zpos m * 2 ^ e * 100
  else
    let den := 2 ^ (- e) in
    let q := (Zpos m * 100) / den in
    let r := (Zpos m * 100) mod den in
    match 2 * r ?= den with
    | Lt => q
    | Gt => q + 1
    | Eq => if Z.even q then q else q + 1
    end.

(** Hundredths [n] written with a decimal point: [n = 1250] is [12.50]. *)
Definition hundredths (n : Z) : str :=
  decimal (n / 100) ++ "."%char :: [digit_char (n mod 100 / 10); digit_char (n mod 10)].

Definition sign_prefix (neg : bool) : str := if neg then lit "-" else [].

(** [format(x, ".2f")], the [f"{x:.2f}"] of the source. *)
Definition format_2f (x : float) : str :=
  match Prim2SF x with
  | S754_nan => lit "nan"
  | S754_infinity neg => sign_prefix neg ++ lit "inf"
  | S754_zero neg => sign_prefix neg ++ hundredths 0
  | S754_finite neg m e => sign_prefix neg ++ hundredths (round_hundredths m e)
  end.

(** [int(s)] for a string [s] in base 10: white space around an optional
    sign and a run of digits, single underscores allowed between digits;
    [None] is [ValueError]. *)
Fixpoint int_digits (acc : Z) (prev : ascii) (s : str) : option Z :=
  match s with
  | [] => if is_underscore prev then None else Some acc
  | c :: s' =>
      if is_digit c then int_digits (10 * acc + digit_val c) c s'
      else if is_underscore c && is_digit prev then int_digits acc c s'
      else None
  end.

Definition py_int (s : str) : option Z :=
  let (neg, t) := split_sign (strip_with Py_ISSPACE (TransformDecimalAndSpaceToASCII s)) in
  match t with
  | c :: _ =>
      if is_digit c then option_map (fun n => if neg then - n else n) (int_digits 0 c t)
      else None
  | [] => None
  end.

(** Option as the exception monad. *)
Notation "x <- a ;; b" :=
  (match a with Some x => b | None => None end)
  (at level 61, a at next level, right associativity).

(* ================================================================= *)
(** ** Configuration (main.py, lines 18-19) *)

Definition CSV_HEADER : list str :=
  [lit "Date"; lit "Category"; lit "Amount"; lit "Description"].

Definition CATEGORIES : list str :=
  [lit "Food"; lit "Transport"; lit "Entertainment"; lit "Shopping";
   lit "Bills"; lit "Health"; lit "Education"; lit "Other"].

(* ================================================================= *)
(** ** Data model (main.py, lines 41-58) *)

Record Expense := mkExpense {
  amount : float;
  category : str;
  date : str;
  description : str
}.

(** [Expense.to_row] *)
Definition to_row (e : Expense) : list str :=
  [date e; category e; format_2f (amount e); description e].

(** [Expense.from_row]; [None] is the [IndexError] of a short row or the
    [ValueError] of [float]. *)
Definition from_row (row : list str) : option Expense :=
  d <- nth_error row 0 ;;
  c <- nth_error row 1 ;;
  a <- nth_error row 2 ;;
  x <- py_float a ;;
  let desc := if (3 <? length row)%nat then nth 3 row [] else [] in
  Some {| amount := x; category := c; date := d; description := desc |}.

(* ================================================================= *)
(** ** File operations (main.py, lines 22-27 and 67-106) *)

(** The data file: [None] when it does not exist, else its rows. *)
Definition csv_file := option (list (list str)).

(** [ensure_data_file]: creates the file with the header when absent. *)
Definition ensure_data_file (f : csv_file) : csv_file :=
  match f with
  | None => Some [CSV_HEADER]
  | Some _ => f
  end.

Definition is_empty {A} (l : list A) : bool :=
  match l with [] => true | _ => false end.

(** The loop of [load_expenses] from row number [i] on; [expenses] is
    the list built so far. *)
Fixpoint load_rows (i : nat) (rows : list (list str)) (expenses : list Expense)
  : list Expense :=
  match rows with
  | [] => expenses
  | row :: rest =>
      if (i =? 0)%nat then load_rows (S i) rest expenses
      else if is_empty row || (length row <? 3)%nat then load_rows (S i) rest expenses
      else
        match from_row row with
        | Some e => load_rows (S i) rest (expenses ++ [e])
        | None => load_rows (S i) rest expenses
        end
  end.

(** [load_expenses]: the records read, and the file afterwards. *)
Definition load_expenses (f : csv_file) : list Expense * csv_file :=
  let f1 := ensure_data_file f in
  (match f1 with Some rows => load_rows 0 rows [] | None => [] end, f1).

(** [save_expenses]: the file is opened for writing, which empties it;
    then the header and one row per record are written. *)
Definition save_expenses (expenses : list Expense) (f : csv_file) : csv_file :=
  let _ := ensure_data_file f in
  Some (fold_left (fun rows e => rows ++ [to_row e]) expenses [CSV_HEADER]).


(* ================================================================= *)
(** ** Validation (main.py, lines 170-183) *)

(** The regular expression that [strptime] builds for ["%Y-%m-%d"] is
    [(\d\d\d\d)-(1[0-2]|0[1-9]|[1-9])-(3[0-1]|[1-2]\d|0[1-9]|[1-9]| [1-9])].
    A pattern maps a string to its matches, the text matched and the
    rest, in the order in which a backtracking matcher tries them. *)
Definition pattern := str -> list (str * str).

Definition re_char (p : ascii -> bool) : pattern := fun s =>
  match s with
  | c :: r => if p c then [([c], r)] else []
  | [] => []
  end.

Definition re_seq (a b : pattern) : pattern := fun s =>
  flat_map (fun xr => map (fun yr => (fst xr ++ fst yr, snd yr)) (b (snd xr))) (a s).

Definition re_alt (a b : pattern) : pattern := fun s => a s ++ b s.

Definition re_lit (n : Z) : pattern := re_char (fun c => code c =? n).
Definition re_range (lo hi : Z) : pattern := re_char (between lo hi).
Definition re_d : pattern := re_char is_digit.

(** [\d\d\d\d] *)
Definition re_Y : pattern := re_seq re_d (re_seq re_d (re_seq re_d re_d)).

(** [1[0-2]|0[1-9]|[1-9]] *)
Definition re_m : pattern :=
  re_alt (re_seq (re_lit 49) (re_range 48 50))
    (re_alt (re_seq (re_lit 48) (re_range 49 57)) (re_range 49 57)).

(** [3[0-1]|[1-2]\d|0[1-9]|[1-9]| [1-9]] *)
Definition re_day : pattern :=
  re_alt (re_seq (re_lit 51) (re_range 48 49))
    (re_alt (re_seq (re_range 49 50) re_d)
       (re_alt (re_seq (re_lit 48) (re_range 49 57))
          (re_alt (re_range 49 57) (re_seq (re_lit 32) (re_range 49 57))))).

(** All matches of the whole expression at the start of [s]: the three
    groups and the unmatched rest. *)
Definition date_matches (s : str) : list (str * str * str * str) :=
  flat_map (fun y =>
    flat_map (fun h1 =>
      flat_map (fun m =>
        flat_map (fun h2 =>
          map (fun d => (fst y, fst m, fst d, snd d)) (re_day (snd h2)))
          (re_lit 45 (snd m)))
        (re_m (snd h1)))
      (re_lit 45 (snd y)))
    (re_Y s).

Definition is_leap (y : Z) : bool :=
  (y mod 4 =? 0) && (negb (y mod 100 =? 0) || (y mod 400 =? 0)).

Definition days_in_month (y m : Z) : Z :=
  if m =? 2 then (if is_leap y then 29 else 28)
  else if (m =? 4) || (m =? 6) || (m =? 9) || (m =? 11) then 30
  else 31.

(** The check of [datetime.date(y, m, d)]. *)
Definition date_ok (y m d : Z) : bool :=
  (1 <=? y) && (y <=? 9999) && (1 <=? m) && (m <=? 12) &&
  (1 <=? d) && (d <=? days_in_month y m).

(** [datetime.strptime(s, "%Y-%m-%d")]: year, month and day; [None] is
    [ValueError].  [re.match] returns the first match; text left over
    after it is an error, and so is a date that does not exist. *)
Definition strptime (s : str) : option (Z * Z * Z) :=
  match date_matches s with
  | (y, m, d, []) :: _ =>
      let year := digits_value y in
      let month := digits_value m in
      let day := digits_value (lstrip_with isspace d) in
      if date_ok year month day then Some (year, month, day) else None
  | _ => None
  end.

(** [valid_date] *)
Definition valid_date (s : str) : bool :=
  match strptime s with
  | Some _ => true
  | None => false
  end.

(** [valid_amount] *)
Definition valid_amount (s : str) : bool :=
  match py_float s with
  | Some v => (0 <=? v)%float
  | None => false
  end.

(* ================================================================= *)
(** ** Reporting (main.py, lines 189-211) *)

(** The two summaries run the same loop, [d[key] += e.amount] on a
    [defaultdict(float)].  The loop is written once, over any type of
    numbers with a zero and an addition; the program runs it on binary64
    numbers.  A [dict] keeps its keys in insertion order: it is a list of
    pairs with distinct keys. *)
Section Summation.
Context {A : Type} (zero : A) (add : A -> A -> A).

(** The items added from left to right, starting from zero. *)
Definition sum_list (xs : list A) : A := fold_left add xs zero.

(** [d[k] += v] where a missing key reads as zero. *)
Fixpoint add_to (k : str) (v : A) (d : list (str * A)) : list (str * A) :=
  match d with
  | [] => [(k, add zero v)]
  | (k', w) :: d' =>
      if str_eqb k k' then (k', add w v) :: d'
      else (k', w) :: add_to k v d'
  end.

(** [d = defaultdict(float); for e in es: d[key(e)] += val(e)] *)
Definition group_sums {E : Type} (key : E -> str) (val : E -> A) (es : list E)
  : list (str * A) :=
  fold_left (fun d e => add_to (key e) (val e) d) es [].

(** [d.keys()], [d.values()] and [d.get(k)]. *)
Definition keys (d : list (str * A)) : list str := map fst d.
Definition values (d : list (str * A)) : list A := map snd d.

Fixpoint lookup (k : str) (d : list (str * A)) : option A :=
  match d with
  | [] => None
  | (k', w) :: d' => if str_eqb k k' then Some w else lookup k d'
  end.
End Summation.

(** [float(n)] for a list length. *)
Definition float_of_nat (n : nat) : float :=
  SF2Prim (binary_normalize prec emax (Z.of_nat n) 0%Z false).

(** [sum] as CPython computes it on floats from version 3.12 on
    (Neumaier's compensated summation): the first item is added to the
    integer 0, the others update the running sum [f] and the
    compensation [c], which is added at the end when it is finite and
    not zero. *)
Definition compensated_step (fc : float * float) (x : float) : float * float :=
  let (f, c) := fc in
  let t := (f + x)%float in
  if (abs x <=? abs f)%float then (t, (c + ((f - t) + x))%float)
  else (t, (c + ((x - t) + f))%float).

Definition is_finite (x : float) : bool :=
  match Prim2SF x with
  | S754_zero _ | S754_finite _ _ _ => true
  | _ => false
  end.

Definition compensated_sum (xs : list float) : float :=
  match xs with
  | [] => 0%float
  | x :: xs' =>
      let (f, c) := fold_left compensated_step xs' ((0 + x)%float, 0%float) in
      if negb (c =? 0)%float && is_finite c then (f + c)%float else f
  end.

(** The interpreter decides how the builtin [sum] adds floats: from left
    to right up to CPython 3.11, compensated from 3.12 on. *)
Inductive cpython := Until311 | From312.

(** [sum(xs)] for a sequence of floats. *)
Definition py_sum (py : cpython) (xs : list float) : float :=
  match py with
  | Until311 => sum_list 0%float PrimFloat.add xs
  | From312 => compensated_sum xs
  end.

(** [total_expense] *)
Definition total_expense (py : cpython) (expenses : list Expense) : float :=
  py_sum py (map amount expenses).

(** [average_expense] *)
Definition average_expense (py : cpython) (expenses : list Expense) : float :=
  if is_empty expenses then 0%float
  else (total_expense py expenses / float_of_nat (length expenses))%float.

(** [category_summary] *)
Definition category_summary (expenses : list Expense) : list (str * float) :=
  group_sums 0%float PrimFloat.add category amount expenses.

(** [e.date[:7]] *)
Definition month_key (e : Expense) : str := firstn 7 (date e).

(** [monthly_summary] *)
Definition monthly_summary (expenses : list Expense) : list (str * float) :=
  group_sums 0%float PrimFloat.add month_key amount expenses.

(* ================================================================= *)
(** ** Menu flows (main.py, lines 217-303)

    A flow reads its answers with [input()]: it is given the lines that
    the successive calls return and gives back the lines it has not read.
    Reading past the last line is [EOFError], which no flow catches. *)

(** [while True: amt = input(...).strip(); if valid_amount(amt): break] *)
Fixpoint read_amount (inputs : list str) : option (str * list str) :=
  match inputs with
  | [] => None
  | line :: rest =>
      let amt := strip line in
      if valid_amount amt then Some (amt, rest) else read_amount rest
  end.

(** The date loop of [add_expense_flow]; [today] is
    [datetime.now().strftime("%Y-%m-%d")]. *)
Fixpoint read_date (today : str) (inputs : list str) : option (str * list str) :=
  match inputs with
  | [] => None
  | line :: rest =>
      let date := strip line in
      if is_empty date then Some (today, rest)
      else if valid_date date then Some (date, rest)
      else read_date today rest
  end.

(** Lines 225-228: the category of the add flow, from the line read. *)
Definition add_category (line : str) : str :=
  let cat := if is_empty (strip line) then lit "Other" else strip line in
  if negb (str_in cat CATEGORIES) then lit "Other" else cat.

(** The record that [add_expense_flow] builds from its answers. *)
Definition add_expense_record (today : str) (inputs : list str)
  : option (Expense * list str) :=
  ar <- read_amount inputs ;;
  match snd ar with
  | [] => None
  | cat_line :: in2 =>
      let cat := add_category cat_line in
      dr <- read_date today in2 ;;
      match snd dr with
      | [] => None
      | desc_line :: in4 =>
          let desc := strip desc_line in
          a <- py_float (fst ar) ;;
          Some ({| amount := a; category := cat; date := fst dr; description := desc |}, in4)
      end
  end.


(** [search_expenses_flow]: the records it prints, for the line read. *)
Definition search_expenses_flow (expenses : list Expense) (line : str)
  : list Expense :=
  let q := lower (strip line) in
  if is_empty q then []
  else
    filter (fun e =>
      contains q (lower (category e)) || contains q (lower (description e))
      || contains q (date e)) expenses.

(** Lines 288-301 of [edit_expense_flow]: the record [e] after the four
    answers, each already stripped. *)
Definition edit_record (e : Expense) (new_amt new_cat new_date new_desc : str)
  : Expense :=
  let amount1 :=
    if is_empty new_amt then amount e
    else if valid_amount new_amt then
      match py_float new_amt with Some a => a | None => amount e end
    else amount e in
  let category1 :=
    if is_empty new_cat then category e
    else if str_in new_cat CATEGORIES then new_cat else lit "Other" in
  let date1 :=
    if is_empty new_date then date e
    else if valid_date new_date then new_date else date e in
  let description1 := if is_empty new_desc then description e else new_desc in
  {| amount := amount1; category := category1; date := date1;
     description := description1 |}.

Fixpoint replace_nth {A} (i : nat) (x : A) (l : list A) : list A :=
  match l, i with
  | [], _ => []
  | _ :: l', O => x :: l'
  | y :: l', S j => y :: replace_nth j x l'
  end.

(** [edit_expense_flow]: the list and the file afterwards.  The flow
    returns without saving when the list is empty, when the record
    number is blank, is not an integer or is out of range. *)
Definition edit_expense_flow (expenses : list Expense) (inputs : list str)
  (f : csv_file) : option (list Expense * csv_file) :=
  if is_empty expenses then Some (expenses, f)
  else
    match inputs with
    | [] => None
    | idx_line :: in1 =>
        let idx := strip idx_line in
        if is_empty idx then Some (expenses, f)
        else
          match py_int idx with
          | None => Some (expenses, f)
          | Some n =>
              let i := (n - 1)%Z in
              if (i <? 0)%Z || (Z.of_nat (length expenses) <=? i)%Z
              then Some (expenses, f)
              else
                match nth_error expenses (Z.to_nat i), in1 with
                | Some e, l1 :: l2 :: l3 :: l4 :: _ =>
                    let e' := edit_record e (strip l1) (strip l2) (strip l3) (strip l4) in
                    let expenses' := replace_nth (Z.to_nat i) e' expenses in
                    Some (expenses', save_expenses expenses' f)
                | _, _ => None
                end
          end
    end.

(** [delete_expense_flow] (lines 306-328): the list and the file
    afterwards.  The record number is read and checked as in the edit
    flow; the record is removed, and the list saved, only when the second
    answer, stripped, is exactly [YES]. *)
Fixpoint remove_nth {A} (i : nat) (l : list A) : list A :=
  match l, i with
  | [], _ => []
  | _ :: l', O => l'
  | x :: l', S j => x :: remove_nth j l'
  end.

Definition delete_expense_flow (expenses : list Expense) (inputs : list str)
  (f : csv_file) : option (list Expense * csv_file) :=
  if is_empty expenses then Some (expenses, f)
  else
    match inputs with
    | [] => None
    | idx_line :: in1 =>
        let idx := strip idx_line in
        if is_empty idx then Some (expenses, f)
        else
          match py_int idx with
          | None => Some (expenses, f)
          | Some n =>
              let i := (n - 1)%Z in
              if (i <? 0)%Z || (Z.of_nat (length expenses) <=? i)%Z
              then Some (expenses, f)
              else
                match in1 with
                | [] => None
                | confirm_line :: _ =>
                    if str_eqb (strip confirm_line) (lit "YES") then
                      let expenses' := remove_nth (Z.to_nat i) expenses in
                      Some (expenses', save_expenses expenses' f)
                    else Some (expenses, f)
                end
          end
    end.

(* ================================================================= *)
(** ** Backup and restore (main.py, lines 124-164 and 357-376)

    The backup directory is the list of its files, each a name with its
    content; [None] is the absent directory.  A copy of the data file has
    the rows of the data file.  [os.listdir] gives the names in no
    particular order, which [sorted] then fixes. *)
Definition directory := list (str * list (list str)).

Record disk := mkDisk {
  data_file : csv_file;
  backup_dir : option directory
}.

(** Writing the file [name]: its content is replaced when it exists. *)
Fixpoint write_file (name : str) (content : list (list str)) (d : directory)
  : directory :=
  match d with
  | [] => [(name, content)]
  | (n, c) :: d' =>
      if str_eqb name n then (n, content) :: d'
      else (n, c) :: write_file name content d'
  end.

(** [f"expenses_backup_{ts}.csv"] *)
Definition backup_name (ts : str) : str :=
  lit "expenses_backup_" ++ ts ++ lit ".csv".

(** [create_backup]; [ts] is [datetime.now().strftime("%Y%m%d_%H%M%S")]. *)
Definition create_backup (ts : str) (d : disk) : disk :=
  let f := ensure_data_file (data_file d) in
  let dir := match backup_dir d with Some x => x | None => [] end in
  {| data_file := f;
     backup_dir :=
       Some (match f with
             | Some rows => write_file (backup_name ts) rows dir
             | None => dir
             end) |}.

(** [a <= b] on strings: the order of the code points, a proper prefix
    first. *)
Fixpoint str_leb (a b : str) : bool :=
  match a, b with
  | [], _ => true
  | _ :: _, [] => false
  | x :: a', y :: b' =>
      if code x <? code y then true
      else if code y <? code x then false
      else str_leb a' b'
  end.

Fixpoint insert_sorted (x : str) (l : list str) : list str :=
  match l with
  | [] => [x]
  | y :: l' => if str_leb x y then x :: l else y :: insert_sorted x l'
  end.

(** [sorted(l)] for a list of strings: the ascending rearrangement of
    [l], which is unique because the order of strings is total. *)
Definition sorted (l : list str) : list str := fold_right insert_sorted [] l.

(** [s.endswith(suffix)] *)
Definition ends_with (suffix s : str) : bool :=
  starts_with (rev suffix) (rev s).

(** [list_backups] *)
Definition list_backups (d : disk) : list str :=
  match backup_dir d with
  | None => []
  | Some dir => sorted (filter (ends_with (lit ".csv")) (map fst dir))
  end.

(** [restore_backup]: the disk and the unread lines afterwards.  Nothing
    is read when there is no backup; a blank answer, an answer that is not
    an integer and a number out of range leave the disk as it is. *)
Definition restore_backup (inputs : list str) (d : disk)
  : option (disk * list str) :=
  let backups := list_backups d in
  if is_empty backups then Some (d, inputs)
  else
    match inputs with
    | [] => None
    | line :: rest =>
        let choice := strip line in
        if is_empty choice then Some (d, rest)
        else
          match py_int choice with
          | None => Some (d, rest)
          | Some n =>
              let idx := (n - 1)%Z in
              if (idx <? 0)%Z || (Z.of_nat (length backups) <=? idx)%Z
              then Some (d, rest)
              else
                match nth_error backups (Z.to_nat idx) with
                | Some name =>
                    match lookup name (match backup_dir d with Some x => x | None => [] end) with
                    | Some content =>
                        Some ({| data_file := Some content;
                                 backup_dir := backup_dir d |}, rest)
                    | None => Some (d, rest)
                    end
                | None => Some (d, rest)
                end
          end
    end.

(** [backup_and_restore_flow]: 1 creates a backup, 2 restores one, 3
    only lists the backups, anything else cancels. *)
Definition backup_and_restore_flow (ts : str) (inputs : list str) (d : disk)
  : option (disk * list str) :=
  match inputs with
  | [] => None
  | line :: rest =>
      let choice := strip line in
      if str_eqb choice (lit "1") then Some (create_backup ts d, rest)
      else if str_eqb choice (lit "2") then restore_backup rest d
      else Some (d, rest)
  end.

(* ================================================================= *)
(** ** Vocabulary of the statements *)



(** The number that the two-decimal rendering of [x] denotes: for a
    finite [x] the binary64 number nearest to [x] rounded to hundredths;
    a zero, an infinity and NaN are rendered as themselves. *)
Definition two_decimals (x : float) : float :=
  match Prim2SF x with
  | S754_finite neg m e => decimal_to_float neg (round_hundredths m e) (-2)
  | sf => SF2Prim sf
  end.

(** A record with its amount replaced by its two-decimal rendering. *)
Definition normalized (e : Expense) : Expense :=
  {| amount := two_decimals (amount e); category := category e;
     date := date e; description := description e |}.

(** A row that [load_expenses] keeps: at least three fields, and an
    amount field that [float] accepts. *)
Definition well_formed_row (row : list str) : bool :=
  (3 <=? length row)%nat &&
  match py_float (nth 2 row []) with Some _ => true | None => false end.

(** The record that a kept row decodes to. *)
Definition row_record (row : list str) : Expense :=
  {| amount := match py_float (nth 2 row []) with Some x => x | None => 0%float end;
     category := nth 1 row [];
     date := nth 0 row [];
     description := nth 3 row [] |}.

(** The rows of the data file once [ensure_data_file] has run. *)
Definition rows_of (f : csv_file) : list (list str) :=
  match ensure_data_file f with
  | Some rows => rows
  | None => []
  end.

(** [v] is a number and is not below zero: a zero of either sign, a
    positive finite number or plus infinity; NaN is not. *)
Definition nonnegative (v : float) : Prop :=
  match Prim2SF v with
  | S754_zero _ => True
  | S754_infinity neg => neg = false
  | S754_finite neg _ _ => neg = false
  | S754_nan => False
  end.

(** The items of [es] whose key is [k], in list order. *)
Definition group {E : Type} (key : E -> str) (k : str) (es : list E) : list E :=
  filter (fun e => str_eqb (key e) k) es.

(** The three fields that [strptime] accepts for ["%Y-%m-%d"]: a year of
    four digits; a month 1-9, 01-09 or 10-12; a day 1-9, 01-09, 10-29,
    30-31, or a space and 1-9. *)
Definition year_text (y : str) : bool :=
  (length y =? 4)%nat && forallb is_digit y.

Definition month_text (m : str) : bool :=
  match m with
  | [c] => between 49 57 c
  | [a; c] =>
      ((code a =? 49) && between 48 50 c) || ((code a =? 48) && between 49 57 c)
  | _ => false
  end.

Definition day_text (d : str) : bool :=
  match d with
  | [c] => between 49 57 c
  | [a; c] =>
      ((code a =? 51) && between 48 49 c) || (between 49 50 a && is_digit c)
      || ((code a =? 48) && between 49 57 c) || ((code a =? 32) && between 49 57 c)
  | _ => false
  end.


(** An amount in whole hundredths, as its two-decimal rendering shows
    it (0 for an infinity and for NaN): integers, whose addition is exact. *)
Definition hundredths_of (x : float) : Z :=
  match Prim2SF x with
  | S754_finite neg m e =>
      if neg then - round_hundredths m e else round_hundredths m e
  | _ => 0
  end.

(** A record as the add and edit flows accept it: an amount that is a
    number and is not below zero, one of the fixed categories, and a date
    that [valid_date] accepts. *)
Definition valid_record (e : Expense) : Prop :=
  nonnegative (amount e) /\ In (category e) CATEGORIES /\ valid_date (date e) = true.

(** The answers that make the edit and delete flows return at once: a
    blank line, a line that is not an integer, a number that is not
    between 1 and [n]. *)
Definition no_selection (n : nat) (line : str) : Prop :=
  strip line = [] \/ py_int (strip line) = None \/
  exists k, py_int (strip line) = Some k /\ (k < 1 \/ Z.of_nat n < k).

(** The characters of a two-decimal rendering: digits, point, minus. *)
Definition plain (c : ascii) : bool :=
  is_digit c || (code c =? 46) || (code c =? 45).

(** Sample records: three small purchases in two categories and two
    months, and two records of which one carries only a year as date. *)
Definition sample_expenses : list Expense :=
  [ {| amount := 0.1; category := lit "Food"; date := lit "2024-01-05";
       description := lit "tea" |};
    {| amount := 0.2; category := lit "Bills"; date := lit "2024-02-05";
       description := lit "stamp" |};
    {| amount := 0.6; category := lit "Food"; date := lit "2024-01-09";
       description := lit "bread" |} ].

Definition sample_short_date : list Expense :=
  [ {| amount := 1; category := lit "Food"; date := lit "2024";
       description := [] |};
    {| amount := 2; category := lit "Food"; date := lit "2024-01-05";
       description := [] |} ].

(** A data file with the header, a well-formed row, a row whose amount
    is not a number and a row that is too short. *)
Definition sample_file : csv_file :=
  Some [ CSV_HEADER;
         [lit "2024-01-05"; lit "Food"; lit "12.5"; lit "Lunch, with tea"];
         [lit "2024-01-06"; lit "Food"; lit "abc"; lit "Dinner"];
         [lit "2024-01-07"; lit "Bills"] ].

(** A disk whose data file has only its header, with one backup of the
    sample file in the backup directory. *)
Definition sample_disk : disk :=
  {| data_file := Some [CSV_HEADER];
     backup_dir :=
       backup_dir (create_backup (lit "20240105_120000")
                     {| data_file := sample_file; backup_dir := None |}) |}.

(* ================================================================= *)
(** * Properties *)

(** ** Strings *)

Lemma code_range (c : ascii) : 0 <= code c < 256.
Proof.
  unfold code. pose proof (N_ascii_bounded c). lia.
Qed.

Lemma ascii_eqb_eq (x y : ascii) : Ascii.eqb x y = true <-> x = y.
Proof. apply Ascii.eqb_eq. Qed.

Lemma str_eqb_eq (a b : str) : str_eqb a b = true <-> a = b.
Proof.
  revert b. induction a as [|x a IH]; intros [|y b]; simpl; split;
    try congruence; try reflexivity.
  - intros H. apply andb_true_iff in H as [Hx Hab].
    apply ascii_eqb_eq in Hx. apply IH in Hab. congruence.
  - intros H. injection H as -> ->. apply andb_true_iff. split.
    + now apply ascii_eqb_eq.
    + now apply IH.
Qed.

Lemma str_eqb_refl (a : str) : str_eqb a a = true.
Proof. now apply str_eqb_eq. Qed.

Lemma str_eqb_neq (a b : str) : str_eqb a b = false <-> a <> b.
Proof.
  split.
  - intros H E. apply str_eqb_eq in E. congruence.
  - intros H. destruct (str_eqb a b) eqn:E; [|reflexivity].
    apply str_eqb_eq in E. contradiction.
Qed.

Lemma str_eqb_sym (a b : str) : str_eqb a b = str_eqb b a.
Proof.
  destruct (str_eqb a b) eqn:E1, (str_eqb b a) eqn:E2; try reflexivity.
  - apply str_eqb_eq in E1. subst. now rewrite str_eqb_refl in E2.
  - apply str_eqb_eq in E2. subst. now rewrite str_eqb_refl in E1.
Qed.

Lemma str_in_In (x : str) (l : list str) : str_in x l = true <-> In x l.
Proof.
  unfold str_in. rewrite existsb_exists. split.
  - intros [y [Hy E]]. apply str_eqb_eq in E. now subst.
  - intros H. exists x. split; [assumption | apply str_eqb_refl].
Qed.

Lemma str_in_not_In (x : str) (l : list str) : str_in x l = false <-> ~ In x l.
Proof.
  rewrite <- str_in_In. destruct (str_in x l); split; congruence.
Qed.

Lemma starts_with_app (q s : str) :
  starts_with q s = true <-> exists r, s = q ++ r.
Proof.
  revert s. induction q as [|x q IH]; intros s; simpl.
  - split; [intros _; now exists s | reflexivity].
  - destruct s as [|y s].
    + split; [discriminate | intros [r H]; discriminate].
    + rewrite andb_true_iff, ascii_eqb_eq, IH. split.
      * intros [-> [r ->]]. now exists r.
      * intros [r H]. injection H as -> ->. split; [reflexivity | now exists r].
Qed.


Lemma lstrip_with_head (sp : ascii -> bool) (c : ascii) (s : str) :
  sp c = false -> lstrip_with sp (c :: s) = c :: s.
Proof. intros H. simpl. now rewrite H. Qed.

Lemma strip_with_id (sp : ascii -> bool) (c z : ascii) (s t : str) :
  sp c = false -> sp z = false -> c :: s = t ++ [z] ->
  strip_with sp (c :: s) = c :: s.
Proof.
  intros Hc Hz E. unfold strip_with.
  rewrite (lstrip_with_head sp c s Hc), E, rev_app_distr. simpl.
  rewrite Hz. simpl. now rewrite rev_involutive.
Qed.

Lemma forallb_impl {A} (p q : A -> bool) (l : list A) :
  (forall x, p x = true -> q x = true) ->
  forallb p l = true -> forallb q l = true.
Proof.
  intros H. rewrite !forallb_forall. auto.
Qed.

Lemma existsb_none {A} (p q : A -> bool) (l : list A) :
  (forall x, p x = true -> q x = false) ->
  forallb p l = true -> existsb q l = false.
Proof.
  intros H Hl. induction l as [|x l IH]; simpl in *; [reflexivity|].
  apply andb_true_iff in Hl as [Hx Hl]. now rewrite (H x Hx), IH.
Qed.

(** ** Decimal numerals *)

Lemma digit_char_spec (d : Z) :
  0 <= d <= 9 ->
  is_digit (digit_char d) = true /\ digit_val (digit_char d) = d.
Proof.
  intros H.
  assert (E : d = 0 \/ d = 1 \/ d = 2 \/ d = 3 \/ d = 4 \/ d = 5 \/ d = 6 \/
              d = 7 \/ d = 8 \/ d = 9) by lia.
  repeat (destruct E as [-> | E]; [now vm_compute|]). subst. now vm_compute.
Qed.

Lemma digits_value_snoc (ds : str) (c : ascii) :
  digits_value (ds ++ [c]) = 10 * digits_value ds + digit_val c.
Proof. unfold digits_value. now rewrite fold_left_app. Qed.

Lemma decimal_digits_spec (fuel : nat) (n : Z) :
  0 <= n < 10 ^ (Z.of_nat fuel + 1) ->
  forallb is_digit (decimal_digits fuel n) = true /\
  digits_value (decimal_digits fuel n) = n /\
  decimal_digits fuel n <> [].
Proof.
  revert n. induction fuel as [|fuel IH]; intros n Hn.
  - simpl in *. assert (Hd : 0 <= n <= 9) by lia.
    destruct (digit_char_spec n Hd) as [H1 H2].
    repeat split; [now rewrite H1 | unfold digits_value; simpl; lia | discriminate].
  - cbn [decimal_digits]. destruct (n <? 10) eqn:E.
    + apply Z.ltb_lt in E. assert (Hd : 0 <= n <= 9) by lia.
      destruct (digit_char_spec n Hd) as [H1 H2].
      repeat split; [simpl; now rewrite H1 | unfold digits_value; simpl; lia | discriminate].
    + apply Z.ltb_ge in E.
      assert (Hq : 0 <= n / 10 < 10 ^ (Z.of_nat fuel + 1)).
      { split; [apply Z.div_pos; lia|].
        apply Z.div_lt_upper_bound; [lia|].
        replace (Z.of_nat (S fuel) + 1) with (Z.succ (Z.of_nat fuel + 1)) in Hn by lia.
        rewrite Z.pow_succ_r in Hn by lia. lia. }
      destruct (IH _ Hq) as [H1 [H2 H3]].
      assert (Hr : 0 <= n mod 10 <= 9) by (pose proof (Z.mod_pos_bound n 10); lia).
      destruct (digit_char_spec _ Hr) as [H4 H5].
      repeat split.
      * rewrite forallb_app, H1. simpl. now rewrite H4.
      * rewrite digits_value_snoc, H2, H5.
        pose proof (Z.div_mod n 10). lia.
      * intros C. apply app_eq_nil in C as [_ C]. discriminate.
Qed.

Lemma decimal_spec (n : Z) :
  0 <= n ->
  forallb is_digit (decimal n) = true /\ digits_value (decimal n) = n /\
  decimal n <> [].
Proof.
  intros Hn. apply decimal_digits_spec. split; [assumption|].
  destruct (Z.eq_dec n 0) as [-> | Hz]; [now vm_compute|].
  assert (Hp : 0 < n) by lia.
  pose proof (Z.log2_spec n Hp) as [_ Hlt].
  rewrite Z2Nat.id by apply Z.log2_nonneg.
  eapply Z.lt_le_trans; [exact Hlt|].
  replace (Z.succ (Z.log2 n)) with (Z.log2 n + 1) by lia.
  apply Z.pow_le_mono_l. lia.
Qed.

Lemma span_digits_app (ds r : str) :
  forallb is_digit ds = true ->
  match r with c :: _ => is_digit c = false | [] => True end ->
  span_digits (ds ++ r) = (ds, r).
Proof.
  intros Hd Hr. induction ds as [|c ds IH]; simpl in *.
  - destruct r as [|c r]; [reflexivity|]. simpl. now rewrite Hr.
  - apply andb_true_iff in Hd as [Hc Hd]. now rewrite Hc, IH.
Qed.

(** ** [float] reads back what [format(x, ".2f")] writes *)

Lemma plain_ascii (c : ascii) : plain c = true -> (code c <? 128) = true.
Proof.
  unfold plain, is_digit, between. intros H.
  apply Z.ltb_lt. repeat (apply orb_true_iff in H as [H|H]);
    try (apply andb_true_iff in H as [_ H]); lia.
Qed.

Lemma plain_not_underscore (c : ascii) : plain c = true -> is_underscore c = false.
Proof.
  unfold plain, is_digit, between, is_underscore. intros H.
  apply Z.eqb_neq. repeat (apply orb_true_iff in H as [H|H]);
    try (apply andb_true_iff in H as [_ H]); lia.
Qed.

Lemma digit_plain (c : ascii) : is_digit c = true -> plain c = true.
Proof. unfold plain. now intros ->. Qed.

Lemma digit_not_space (c : ascii) : is_digit c = true -> Py_ISSPACE c = false.
Proof.
  unfold is_digit, Py_ISSPACE, between. intros H.
  apply andb_true_iff in H as [H1 H2].
  apply orb_false_iff. split; [apply andb_false_iff; right|]; lia.
Qed.

Lemma digit_not_sign (c : ascii) : is_digit c = true -> is_sign c = false.
Proof.
  unfold is_digit, is_sign, between. intros H.
  apply andb_true_iff in H as [H1 H2]. apply orb_false_iff. lia.
Qed.

(** A numeral [ip.fp] with digits on both sides of the point. *)
Lemma strtod_point (neg : bool) (ip fp : str) :
  forallb is_digit ip = true -> forallb is_digit fp = true -> ip <> [] ->
  strtod (sign_prefix neg ++ ip ++ "."%char :: fp) =
  Some (decimal_to_float neg (digits_value (ip ++ fp)) (- Z.of_nat (length fp)), []).
Proof.
  intros Hip Hfp Hne.
  destruct ip as [|c ip]; [contradiction|].
  pose proof Hip as Hc. simpl in Hc. apply andb_true_iff in Hc as [Hc _].
  assert (Hs : split_sign (sign_prefix neg ++ (c :: ip) ++ "."%char :: fp)
               = (neg, (c :: ip) ++ "."%char :: fp)).
  { destruct neg; [reflexivity|]. simpl. now rewrite (digit_not_sign c Hc). }
  unfold strtod. rewrite Hs.
  rewrite (span_digits_app (c :: ip) ("."%char :: fp) Hip) by reflexivity.
  change (code "."%char =? 46) with true. cbv iota.
  pose proof (span_digits_app fp [] Hfp I) as Hsp.
  rewrite app_nil_r in Hsp. rewrite Hsp.
  reflexivity.
Qed.

Lemma hundredths_spec (n : Z) :
  0 <= n ->
  exists ip c1 c2,
    hundredths n = ip ++ "."%char :: [c1; c2] /\
    forallb is_digit ip = true /\ ip <> [] /\
    is_digit c1 = true /\ is_digit c2 = true /\
    digits_value (ip ++ [c1; c2]) = n.
Proof.
  intros Hn. unfold hundredths.
  assert (Hk : 0 <= n / 100) by (apply Z.div_pos; lia).
  destruct (decimal_spec _ Hk) as [H1 [H2 H3]].
  pose proof (Z.mod_pos_bound n 100 ltac:(lia)) as Hm.
  assert (Hd1 : 0 <= n mod 100 / 10 <= 9).
  { split; [apply Z.div_pos; lia|].
    apply Z.lt_succ_r. apply Z.div_lt_upper_bound; lia. }
  assert (Hd2 : 0 <= n mod 10 <= 9) by (pose proof (Z.mod_pos_bound n 10); lia).
  destruct (digit_char_spec _ Hd1) as [H4 H5].
  destruct (digit_char_spec _ Hd2) as [H6 H7].
  exists (decimal (n / 100)), (digit_char (n mod 100 / 10)), (digit_char (n mod 10)).
  repeat split; try assumption.
  change (decimal (n / 100) ++ [digit_char (n mod 100 / 10); digit_char (n mod 10)])
    with (decimal (n / 100) ++ [digit_char (n mod 100 / 10)] ++ [digit_char (n mod 10)]).
  rewrite app_assoc, !digits_value_snoc, H2, H5, H7.
  pose proof (Z.div_mod n 100). pose proof (Z.div_mod (n mod 100) 10).
  assert (Hmm : (n mod 100) mod 10 = n mod 10).
  { apply Z.mod_mod_divide. now exists 10. }
  lia.
Qed.

Lemma py_float_hundredths (neg : bool) (n : Z) :
  0 <= n ->
  py_float (sign_prefix neg ++ hundredths n) = Some (decimal_to_float neg n (-2)).
Proof.
  intros Hn.
  destruct (hundredths_spec n Hn) as (ip & c1 & c2 & E & Hip & Hne & Hc1 & Hc2 & Hv).
  rewrite E. set (s := sign_prefix neg ++ ip ++ "."%char :: [c1; c2]).
  assert (Hplain : forallb plain s = true).
  { unfold s. rewrite !forallb_app. apply andb_true_iff. split.
    - now destruct neg.
    - apply andb_true_iff. split.
      + revert Hip. apply forallb_impl, digit_plain.
      + simpl. now rewrite (digit_plain _ Hc1), (digit_plain _ Hc2). }
  assert (Hhead : exists c t, s = c :: t /\ Py_ISSPACE c = false).
  { unfold s. destruct neg.
    - now exists "-"%char, (ip ++ "."%char :: [c1; c2]).
    - destruct ip as [|c ip]; [contradiction|].
      exists c, (ip ++ "."%char :: [c1; c2]). split; [reflexivity|].
      apply digit_not_space. simpl in Hip. now apply andb_true_iff in Hip as [Hip _]. }
  destruct Hhead as (c & t & Es & Hc).
  assert (Hstrip : strip_with Py_ISSPACE s = s).
  { rewrite Es. apply (strip_with_id _ c c2 t (sign_prefix neg ++ ip ++ "."%char :: [c1])).
    - exact Hc.
    - now apply digit_not_space.
    - rewrite <- Es. unfold s. now rewrite <- !app_assoc. }
  unfold py_float, TransformDecimalAndSpaceToASCII.
  rewrite (forallb_impl _ _ _ plain_ascii Hplain).
  rewrite (existsb_none _ _ _ plain_not_underscore Hplain).
  unfold float_from_string_inner. rewrite Hstrip.
  rewrite Es. cbv beta iota. rewrite <- Es. unfold ascii_strtod, s.
  rewrite strtod_point; try assumption.
  - now rewrite Hv.
  - simpl. now rewrite Hc1, Hc2.
Qed.

Lemma round_hundredths_nonneg (m : positive) (e : Z) : 0 <= round_hundredths m e.
Proof.
  unfold round_hundredths. destruct (0 <=? e) eqn:E.
  - apply Z.leb_le in E. pose proof (Z.pow_nonneg 2 e). nia.
  - assert (Hden : 0 < 2 ^ (- e)) by (apply Z.pow_pos_nonneg; lia).
    assert (Hq : 0 <= Z.pos m * 100 / 2 ^ (- e)) by (apply Z.div_pos; lia).
    destruct (2 * ((Z.pos m * 100) mod 2 ^ (- e)) ?= 2 ^ (- e)); try lia.
    destruct (Z.even _); lia.
Qed.

(** [float] accepts every output of the two-decimal formatting, and
    reads the rendered number. *)
Lemma py_float_format_2f (x : float) :
  py_float (format_2f x) = Some (two_decimals x).
Proof.
  unfold format_2f, two_decimals. destruct (Prim2SF x) as [neg|neg| |neg m e].
  - rewrite py_float_hundredths by lia. now destruct neg.
  - now destruct neg.
  - reflexivity.
  - apply py_float_hundredths, round_hundredths_nonneg.
Qed.

(** ** Record model: rows *)

Lemma from_row_well_formed (row : list str) :
  well_formed_row row = true -> from_row row = Some (row_record row).
Proof.
  unfold well_formed_row, from_row, row_record. intros H.
  apply andb_true_iff in H as [Hlen Hamt].
  destruct row as [|d [|c [|a rest]]]; try discriminate. simpl in *.
  destruct (py_float a); [|discriminate].
  now destruct rest.
Qed.

Lemma from_row_not_well_formed (row : list str) :
  well_formed_row row = false -> from_row row = None.
Proof.
  unfold well_formed_row, from_row. intros H.
  destruct row as [|d [|c [|a rest]]]; try reflexivity. simpl in *.
  now destruct (py_float a).
Qed.

Lemma well_formed_to_row (e : Expense) :
  well_formed_row (to_row e) = true /\ row_record (to_row e) = normalized e.
Proof.
  unfold well_formed_row, row_record, to_row, normalized. simpl.
  now rewrite py_float_format_2f.
Qed.


(** ** Persistence: [load_expenses] and [save_expenses] *)

Lemma load_rows_spec (rows : list (list str)) (i : nat) (acc : list Expense) :
  i <> O ->
  load_rows i rows acc = acc ++ map row_record (filter well_formed_row rows).
Proof.
  revert i acc. induction rows as [|row rows IH]; intros i acc Hi.
  - simpl. now rewrite app_nil_r.
  - cbn [load_rows filter]. destruct i as [|i]; [contradiction|].
    cbn [Nat.eqb].
    destruct (well_formed_row row) eqn:W.
    + rewrite (from_row_well_formed _ W).
      assert (Hs : is_empty row || (length row <? 3)%nat = false).
      { unfold well_formed_row in W. apply andb_true_iff in W as [W _].
        apply Nat.leb_le in W. destruct row; simpl in *; [lia|].
        apply Nat.ltb_ge. lia. }
      rewrite Hs, IH by discriminate. simpl. now rewrite <- app_assoc.
    + rewrite (from_row_not_well_formed _ W).
      destruct (is_empty row || (length row <? 3)%nat); now rewrite IH.
Qed.

Lemma load_expenses_rows (f : csv_file) :
  fst (load_expenses f) = map row_record (filter well_formed_row (tl (rows_of f))).
Proof.
  unfold load_expenses, rows_of. simpl.
  destruct (ensure_data_file f) as [[|header rows]|]; try reflexivity.
  cbn [load_rows Nat.eqb tl]. now rewrite load_rows_spec.
Qed.

Lemma well_formed_row_iff (row : list str) :
  well_formed_row row = false <->
  (length row < 3)%nat \/ py_float (nth 2 row []) = None.
Proof.
  unfold well_formed_row. rewrite andb_false_iff, Nat.leb_gt.
  destruct (py_float (nth 2 row [])); intuition congruence.
Qed.

(** C3. [load_expenses] reads every row after the first one, in file
    order; it drops exactly the rows with fewer than three fields and the
    rows whose amount field [float] rejects, and decodes the others.  A
    file with one well-formed row and one row with an unreadable amount
    gives exactly the record of the well-formed row. *)
Theorem load_expenses_spec (f : csv_file) :
  fst (load_expenses f) = map row_record (filter well_formed_row (tl (rows_of f)))
  /\ (forall row, well_formed_row row = false <->
        (length row < 3)%nat \/ py_float (nth 2 row []) = None)
  /\ (forall row, well_formed_row row = true -> from_row row = Some (row_record row))
  /\ (forall header good bad,
        well_formed_row good = true -> py_float (nth 2 bad []) = None ->
        fst (load_expenses (Some [header; good; bad])) = [row_record good] /\
        fst (load_expenses (Some [header; bad; good])) = [row_record good]).
Proof.
  split; [apply load_expenses_rows|].
  split; [apply well_formed_row_iff|].
  split; [apply from_row_well_formed|].
  intros header good bad Hg Hb.
  assert (Wb : well_formed_row bad = false) by (apply well_formed_row_iff; now right).
  rewrite !load_expenses_rows. unfold rows_of. simpl. now rewrite Hg, Wb.
Qed.

Lemma save_expenses_rows (expenses : list Expense) (f : csv_file) :
  save_expenses expenses f = Some (CSV_HEADER :: map to_row expenses).
Proof.
  unfold save_expenses. f_equal.
  assert (H : forall acc, fold_left (fun rows e => rows ++ [to_row e]) expenses acc
                          = acc ++ map to_row expenses).
  { induction expenses as [|e es IH]; intros acc; simpl.
    - now rewrite app_nil_r.
    - now rewrite IH, <- app_assoc. }
  apply H.
Qed.

Lemma load_saved (expenses : list Expense) (f : csv_file) :
  fst (load_expenses (save_expenses expenses f)) = map normalized expenses.
Proof.
  rewrite save_expenses_rows, load_expenses_rows. unfold rows_of. simpl.
  induction expenses as [|e es IH]; [reflexivity|].
  destruct (well_formed_to_row e) as [H1 H2].
  cbn [map filter]. rewrite H1. cbn [map]. now rewrite H2, IH.
Qed.

(** C4. [save_expenses] replaces the file by the header row followed by
    the encoded row of each record, in order.  For a file that begins with
    the header row (or does not exist yet), saving what was loaded keeps
    the header, and loading again gives the same records with amounts in
    their two-decimal rendering. *)
Theorem save_load_expenses (f : csv_file) :
  (forall rows, f = Some rows -> hd_error rows = Some CSV_HEADER) ->
  (forall expenses g,
     save_expenses expenses g = Some (CSV_HEADER :: map to_row expenses)) /\
  let (expenses, f1) := load_expenses f in
  let f2 := save_expenses expenses f1 in
  hd_error (rows_of f1) = Some CSV_HEADER /\
  hd_error (rows_of f2) = Some CSV_HEADER /\
  fst (load_expenses f2) = map normalized expenses.
Proof.
  intros Hh. split; [intros; apply save_expenses_rows|].
  destruct (load_expenses f) as [expenses f1] eqn:E.
  cbv zeta. split; [|split].
  - unfold load_expenses in E. injection E as _ <-.
    destruct f as [rows|]; [|reflexivity].
    unfold rows_of. simpl. now apply Hh.
  - now rewrite save_expenses_rows.
  - apply load_saved.
Qed.

(** The statement of [save_load_expenses] on the sample file. *)
Lemma save_load_expenses_sample :
  (forall expenses g,
     save_expenses expenses g = Some (CSV_HEADER :: map to_row expenses)) /\
  let (expenses, f1) := load_expenses sample_file in
  let f2 := save_expenses expenses f1 in
  hd_error (rows_of f1) = Some CSV_HEADER /\
  hd_error (rows_of f2) = Some CSV_HEADER /\
  fst (load_expenses f2) = map normalized expenses.
Proof.
  apply (save_load_expenses sample_file).
  intros rows H. injection H as <-. reflexivity.
Defined.

(** On the sample file only the well-formed row is loaded, and saving
    writes its amount with two decimals. *)
Lemma load_save_sample :
  fst (load_expenses sample_file)
  = [ {| amount := 12.5; category := lit "Food"; date := lit "2024-01-05";
         description := lit "Lunch, with tea" |} ]
  /\ save_expenses (fst (load_expenses sample_file)) sample_file
     = Some [ CSV_HEADER;
              [lit "2024-01-05"; lit "Food"; lit "12.50"; lit "Lunch, with tea"] ].
Proof. split; reflexivity. Qed.

(** Renderings with two decimals: halves round to the even neighbour of
    the binary value, and the number read back is the nearest binary64
    number. *)
Lemma format_2f_samples :
  format_2f 12.5 = lit "12.50" /\ format_2f 0.125 = lit "0.12"
  /\ format_2f 2.675 = lit "2.67" /\ format_2f 1500 = lit "1500.00"
  /\ format_2f (-0.001) = lit "-0.00" /\ format_2f infinity = lit "inf"
  /\ two_decimals 12.5 = 12.5%float /\ two_decimals 0.125 = 0.12%float.
Proof. repeat split; reflexivity. Qed.

Lemma py_float_samples :
  py_float (lit " 12.5 ") = Some 12.5%float
  /\ py_float (lit "1_000") = Some 1000%float
  /\ py_float (lit "1e3") = Some 1000%float
  /\ py_float (lit ".5") = Some 0.5%float
  /\ py_float (lit "Infinity") = Some infinity
  /\ py_float (lit "nan") = Some nan
  /\ py_float (lit "1e") = None
  /\ py_float (lit "12,5") = None
  /\ py_float (lit "") = None.
Proof. repeat split; reflexivity. Qed.

(** ** Validation: amounts *)

Lemma leb_zero_nonnegative (v : float) :
  (0 <=? v)%float = true <-> nonnegative v.
Proof.
  rewrite leb_spec. unfold nonnegative.
  change (Prim2SF 0) with (S754_zero false).
  destruct (Prim2SF v) as [neg|neg| |neg m e]; try destruct neg;
    cbn; intuition congruence.
Qed.


(** ** Reporting: total and average *)

Lemma sum_list_snoc {A} (zero : A) (add : A -> A -> A) (xs : list A) (x : A) :
  sum_list zero add (xs ++ [x]) = add (sum_list zero add xs) x.
Proof. unfold sum_list. now rewrite fold_left_app. Qed.


(** Three amounts that binary64 adds without rounding. *)
Lemma total_average_sample (py : cpython) :
  let es := [ {| amount := 12.5; category := lit "Food"; date := lit "2024-01-05";
                 description := [] |};
              {| amount := 7.25; category := lit "Bills"; date := lit "2024-01-06";
                 description := [] |};
              {| amount := 10.25; category := lit "Food"; date := lit "2024-02-01";
                 description := [] |} ] in
  total_expense py es = 30%float /\ average_expense py es = 10%float.
Proof. destruct py; split; reflexivity. Qed.

(** ** Reporting: the grouping loop *)

Lemma NoDup_snoc {A} (l : list A) (x : A) :
  NoDup l -> ~ In x l -> NoDup (l ++ [x]).
Proof.
  intros Hl Hx. induction Hl as [|y l Hy Hl IH]; simpl.
  - constructor; [intros [] | constructor].
  - constructor.
    + rewrite in_app_iff. intros [H | [H | []]]; [contradiction|].
      subst. apply Hx. now left.
    + apply IH. intros H. apply Hx. now right.
Qed.

Section GroupSums.
Context {A E : Type} (zero : A) (add : A -> A -> A).
Context (key : E -> str) (val : E -> A).

Lemma group_sums_snoc (es : list E) (e : E) :
  group_sums zero add key val (es ++ [e]) = add_to zero add (key e) (val e) (group_sums zero add key val es).
Proof. unfold group_sums. now rewrite fold_left_app. Qed.

Lemma keys_add_to (k : str) (v : A) (d : list (str * A)) :
  keys (add_to zero add k v d) = if str_in k (keys d) then keys d else keys d ++ [k].
Proof.
  induction d as [|[k' w] d IH]; [reflexivity|].
  unfold keys, str_in in *. simpl.
  destruct (str_eqb k k'); simpl; [reflexivity|].
  rewrite IH. now destruct (existsb (str_eqb k) (map fst d)).
Qed.

Lemma lookup_add_to_same (k : str) (v : A) (d : list (str * A)) :
  lookup k (add_to zero add k v d) =
  Some (add (match lookup k d with Some w => w | None => zero end) v).
Proof.
  induction d as [|[k' w] d IH]; simpl.
  - now rewrite str_eqb_refl.
  - destruct (str_eqb k k') eqn:E1; simpl; now rewrite E1.
Qed.

Lemma lookup_add_to_other (k k' : str) (v : A) (d : list (str * A)) :
  k' <> k -> lookup k' (add_to zero add k v d) = lookup k' d.
Proof.
  intros Hne. induction d as [|[k'' w] d IH]; simpl.
  - apply str_eqb_neq in Hne. now rewrite Hne.
  - destruct (str_eqb k k'') eqn:E1; simpl.
    + apply str_eqb_eq in E1. subst k''.
      apply str_eqb_neq in Hne. now rewrite Hne.
    + now rewrite IH.
Qed.

Lemma keys_group_sums (es : list E) (k : str) :
  In k (keys (group_sums zero add key val es)) <-> exists e, In e es /\ key e = k.
Proof.
  revert k. induction es as [|e es IH] using rev_ind; intros k.
  - simpl. split; [intros [] | intros [e [[] _]]].
  - rewrite group_sums_snoc, keys_add_to.
    destruct (str_in (key e) (keys (group_sums zero add key val es))) eqn:Hin.
    + rewrite IH. apply str_in_In, IH in Hin. destruct Hin as [e0 [H0 E0]].
      split.
      * intros [e1 [H1 E1]]. exists e1. split; [|assumption].
        apply in_or_app. now left.
      * intros [e1 [H1 E1]]. apply in_app_or in H1 as [H1 | [-> | []]].
        -- now exists e1.
        -- exists e0. split; [assumption | congruence].
    + rewrite in_app_iff, IH. split.
      * intros [[e1 [H1 E1]] | [H | []]].
        -- exists e1. split; [|assumption]. apply in_or_app. now left.
        -- exists e. split; [|assumption]. apply in_or_app. right. now left.
      * intros [e1 [H1 E1]]. apply in_app_or in H1 as [H1 | [-> | []]].
        -- left. now exists e1.
        -- right. now left.
Qed.

Lemma NoDup_keys_group_sums (es : list E) : NoDup (keys (group_sums zero add key val es)).
Proof.
  induction es as [|e es IH] using rev_ind; [constructor|].
  rewrite group_sums_snoc, keys_add_to.
  destruct (str_in (key e) (keys (group_sums zero add key val es))) eqn:Hin; [assumption|].
  apply NoDup_snoc; [assumption|]. now apply str_in_not_In.
Qed.

(** The value stored under [k] is the left-to-right sum of group [k]. *)
Lemma lookup_group_sums (es : list E) (k : str) :
  lookup k (group_sums zero add key val es) =
  if is_empty (group key k es) then None
  else Some (sum_list zero add (map val (group key k es))).
Proof.
  induction es as [|e es IH] using rev_ind; [reflexivity|].
  rewrite group_sums_snoc. unfold group in *. rewrite filter_app. cbn [filter].
  destruct (str_eqb (key e) k) eqn:Ek.
  - apply str_eqb_eq in Ek. subst k.
    rewrite lookup_add_to_same, IH.
    rewrite map_app. cbn [map]. rewrite sum_list_snoc.
    destruct (filter _ es) as [|e0 l]; reflexivity.
  - apply str_eqb_neq in Ek.
    rewrite lookup_add_to_other by congruence.
    now rewrite app_nil_r.
Qed.

Lemma lookup_group_sums_key (es : list E) (k : str) :
  In k (keys (group_sums zero add key val es)) ->
  lookup k (group_sums zero add key val es) = Some (sum_list zero add (map val (group key k es))).
Proof.
  intros H. rewrite lookup_group_sums.
  apply keys_group_sums in H as [e [He Ek]].
  assert (Hg : In e (group key k es)).
  { apply filter_In. split; [assumption | now apply str_eqb_eq]. }
  now destruct (group key k es).
Qed.

(** With an exact addition the order of the additions does not
    matter, and the stored values add up to the sum of all items. *)
Section Exact.
Hypothesis add_assoc : forall x y z, add x (add y z) = add (add x y) z.
Hypothesis add_comm : forall x y, add x y = add y x.
Hypothesis add_zero : forall x, add zero x = x.

Lemma fold_add_from (xs : list A) (a : A) :
  fold_left add xs a = add a (sum_list zero add xs).
Proof.
  unfold sum_list. revert a. induction xs as [|x xs IH]; intros a; simpl.
  - now rewrite add_comm, add_zero.
  - rewrite IH, (IH (add zero x)), add_zero. now rewrite add_assoc.
Qed.

Lemma sum_list_cons (x : A) (xs : list A) :
  sum_list zero add (x :: xs) = add x (sum_list zero add xs).
Proof.
  unfold sum_list at 1. simpl. now rewrite fold_add_from, add_zero.
Qed.

Lemma sum_values_add_to (k : str) (v : A) (d : list (str * A)) :
  sum_list zero add (values (add_to zero add k v d)) = add (sum_list zero add (values d)) v.
Proof.
  induction d as [|[k' w] d IH].
  - cbn. now rewrite !add_zero.
  - cbn [add_to]. destruct (str_eqb k k'); cbn [values map snd].
    + rewrite !sum_list_cons.
      rewrite <- !add_assoc. f_equal. apply add_comm.
    + fold (values (add_to zero add k v d)). fold (values d).
      rewrite !sum_list_cons, IH. now rewrite add_assoc.
Qed.

Lemma sum_values_group_sums (es : list E) :
  sum_list zero add (values (group_sums zero add key val es)) = sum_list zero add (map val es).
Proof.
  induction es as [|e es IH] using rev_ind; [reflexivity|].
  rewrite group_sums_snoc, sum_values_add_to, map_app. cbn [map].
  now rewrite sum_list_snoc, IH.
Qed.
End Exact.
End GroupSums.

(** Two binary64 numbers with different representations are different. *)
Ltac float_neq :=
  let H := fresh in
  intro H; apply (f_equal Prim2SF) in H; vm_compute in H; discriminate H.

(** ** Reporting: per-category and per-month sums *)

(** C7 (as amended). The keys of [category_summary] are exactly the
    categories that occur in the list, each once; each key maps to the sum
    of the amounts of its records, added from left to right in list order.
    The values add up to the total whenever the addition of amounts is
    exact (associative and commutative with zero as identity); with
    binary64 amounts the two can differ in the last digits. *)
Theorem category_summary_spec (es : list Expense) :
  NoDup (keys (category_summary es))
  /\ (forall k, In k (keys (category_summary es)) <->
                exists e, In e es /\ category e = k)
  /\ (forall k, In k (keys (category_summary es)) ->
        lookup k (category_summary es)
        = Some (sum_list 0%float PrimFloat.add (map amount (group category k es))))
  /\ (forall (A : Type) (zero : A) (add : A -> A -> A) (val : Expense -> A),
        (forall x y z, add x (add y z) = add (add x y) z) ->
        (forall x y, add x y = add y x) ->
        (forall x, add zero x = x) ->
        sum_list zero add (values (group_sums zero add category val es))
        = sum_list zero add (map val es)).
Proof.
  unfold category_summary. split; [apply NoDup_keys_group_sums|].
  split; [intros k; apply keys_group_sums|].
  split; [intros k; apply lookup_group_sums_key|].
  intros A zero add val Hassoc Hcomm Hzero. now apply sum_values_group_sums.
Qed.

(** C7, counterexample. For three records of 0.1 (Food), 0.2 (Bills) and
    0.6 (Food) the values of [category_summary] are 0.7 and 0.2 and add
    up to 0.8999999999999999, while [total_expense] is 0.9, under either
    way of computing [sum]. *)
Lemma category_summary_total_differs :
  category_summary sample_expenses = [(lit "Food", 0.7%float); (lit "Bills", 0.2%float)]
  /\ py_sum Until311 (values (category_summary sample_expenses)) = 0.8999999999999999%float
  /\ py_sum From312 (values (category_summary sample_expenses)) = 0.8999999999999999%float
  /\ total_expense Until311 sample_expenses = 0.9%float
  /\ total_expense From312 sample_expenses = 0.9%float
  /\ py_sum Until311 (values (category_summary sample_expenses))
     <> total_expense Until311 sample_expenses
  /\ py_sum From312 (values (category_summary sample_expenses))
     <> total_expense From312 sample_expenses.
Proof.
  repeat split; try (vm_compute; reflexivity); float_neq.
Qed.

Lemma firstn_eq_prefix (k s : str) :
  length k = 7%nat -> (7 <= length s)%nat ->
  (firstn 7 s = k <-> starts_with k s = true).
Proof.
  intros Hk Hs. rewrite starts_with_app. split.
  - intros <-. exists (skipn 7 s). now rewrite firstn_skipn.
  - intros [r ->]. rewrite firstn_app, Hk, Nat.sub_diag, firstn_O, app_nil_r.
    rewrite <- Hk. apply firstn_all.
Qed.

(** Counted in whole hundredths, the values of both summaries add up to
    the total, for every list of records. *)
Lemma summaries_add_up_in_hundredths (es : list Expense) :
  sum_list 0 Z.add
    (values (group_sums 0 Z.add category (fun e => hundredths_of (amount e)) es))
  = sum_list 0 Z.add (map (fun e => hundredths_of (amount e)) es)
  /\ sum_list 0 Z.add
       (values (group_sums 0 Z.add month_key (fun e => hundredths_of (amount e)) es))
     = sum_list 0 Z.add (map (fun e => hundredths_of (amount e)) es).
Proof.
  split; apply sum_values_group_sums; intros; lia.
Qed.

Lemma summaries_in_hundredths_sample :
  group_sums 0 Z.add category (fun e => hundredths_of (amount e)) sample_expenses
  = [(lit "Food", 70); (lit "Bills", 20)]
  /\ sum_list 0 Z.add (map (fun e => hundredths_of (amount e)) sample_expenses) = 90.
Proof. split; reflexivity. Qed.

(** C10 (as amended). The keys of [monthly_summary] are exactly the
    values of [date[:7]] over the records, each once; each key maps to the
    sum, from left to right, of the amounts of the records whose [date[:7]]
    is that key; when every date has at least seven characters these are
    the records whose date starts with the key.  The values add up to the
    total whenever the addition of amounts is exact. *)
Theorem monthly_summary_spec (es : list Expense) :
  NoDup (keys (monthly_summary es))
  /\ (forall k, In k (keys (monthly_summary es)) <->
                exists e, In e es /\ firstn 7 (date e) = k)
  /\ (forall k, In k (keys (monthly_summary es)) ->
        lookup k (monthly_summary es)
        = Some (sum_list 0%float PrimFloat.add (map amount (group month_key k es))))
  /\ ((forall e, In e es -> (7 <= length (date e))%nat) ->
      forall k, In k (keys (monthly_summary es)) ->
        group month_key k es = filter (fun e => starts_with k (date e)) es)
  /\ (forall (A : Type) (zero : A) (add : A -> A -> A) (val : Expense -> A),
        (forall x y z, add x (add y z) = add (add x y) z) ->
        (forall x y, add x y = add y x) ->
        (forall x, add zero x = x) ->
        sum_list zero add (values (group_sums zero add month_key val es))
        = sum_list zero add (map val es)).
Proof.
  unfold monthly_summary. split; [apply NoDup_keys_group_sums|].
  split; [intros k; apply (keys_group_sums _ _ month_key)|].
  split; [intros k; apply lookup_group_sums_key|].
  split.
  - intros Hlen k Hk. apply keys_group_sums in Hk as [e0 [H0 E0]].
    assert (Hk7 : length k = 7%nat).
    { rewrite <- E0. unfold month_key. apply firstn_length_le. now apply Hlen. }
    unfold group. apply filter_ext_in. intros e He.
    destruct (starts_with k (date e)) eqn:Es.
    + apply str_eqb_eq. apply firstn_eq_prefix; auto.
    + apply str_eqb_neq. intros C.
      apply firstn_eq_prefix in C; auto. congruence.
  - intros A zero add val Hassoc Hcomm Hzero. now apply sum_values_group_sums.
Qed.

(** C10, counterexample. A record dated "2024" and a record dated
    "2024-01-05" give the keys "2024" and "2024-01"; the key "2024" maps
    to the first amount alone, though both dates start with "2024".  And
    the values of [monthly_summary] on the three sample records add up to
    0.8999999999999999 while the total is 0.9. *)
Lemma monthly_summary_differs :
  monthly_summary sample_short_date = [(lit "2024", 1%float); (lit "2024-01", 2%float)]
  /\ sum_list 0%float PrimFloat.add
       (map amount (filter (fun e => starts_with (lit "2024") (date e)) sample_short_date))
     = 3%float
  /\ lookup (lit "2024") (monthly_summary sample_short_date) <> Some 3%float
  /\ monthly_summary sample_expenses = [(lit "2024-01", 0.7%float); (lit "2024-02", 0.2%float)]
  /\ py_sum Until311 (values (monthly_summary sample_expenses))
     <> total_expense Until311 sample_expenses
  /\ py_sum From312 (values (monthly_summary sample_expenses))
     <> total_expense From312 sample_expenses.
Proof.
  repeat split; try (vm_compute; reflexivity); try float_neq.
  intros H.
  apply (f_equal (fun o => match o with Some x => Prim2SF x | None => S754_nan end)) in H.
  vm_compute in H. discriminate H.
Qed.

(** ** Validation: dates *)

Ltac break_if H :=
  match type of H with
  | context [if ?b then _ else _] => destruct b eqn:?; simpl in H
  end.

Ltac pair_eq :=
  repeat match goal with
  | H : _ \/ _ |- _ => destruct H
  | H : False |- _ => destruct H
  | H : (_, _) = (_, _) |- _ => injection H as <- <-
  end.

Ltac use_tests :=
  repeat match goal with
  | H : ?b = true |- context [?b] => rewrite H
  end.

Ltac char_facts :=
  unfold is_digit, between in *;
  repeat match goal with
  | H : (_ =? _) = true |- _ => apply Z.eqb_eq in H
  | H : (_ =? _) = false |- _ => apply Z.eqb_neq in H
  | H : (_ && _) = true |- _ => apply andb_true_iff in H as [? ?]
  | H : (_ <=? _) = true |- _ => apply Z.leb_le in H
  | H : (_ <=? _) = false |- _ => apply Z.leb_gt in H
  end.

Ltac regex_cases H :=
  simpl in H; repeat break_if H; pair_eq; try discriminate;
  first
    [ split; [reflexivity | simpl; use_tests; simpl; rewrite ?orb_true_r; reflexivity]
    | exfalso; char_facts; lia ].

Lemma re_Y_In (s x r : str) :
  In (x, r) (re_Y s) -> s = x ++ r /\ year_text x = true.
Proof.
  unfold re_Y, re_seq, re_d, re_char, year_text. intros H.
  destruct s as [|a [|b [|c [|d s]]]]; regex_cases H.
Qed.

Lemma re_m_In (s x r : str) :
  In (x, r) (re_m s) -> s = x ++ r /\ month_text x = true.
Proof.
  unfold re_m, re_alt, re_seq, re_lit, re_range, re_char. intros H.
  destruct s as [|a [|b s]]; regex_cases H.
Qed.

Lemma re_day_In (s x r : str) :
  In (x, r) (re_day s) -> s = x ++ r /\ day_text x = true.
Proof.
  unfold re_day, re_alt, re_seq, re_lit, re_range, re_d, re_char. intros H.
  destruct s as [|a [|b s]]; regex_cases H.
Qed.

Lemma re_lit_In (n : Z) (s x r : str) :
  In (x, r) (re_lit n s) -> exists c, s = c :: r /\ code c = n.
Proof.
  unfold re_lit, re_char. intros H.
  destruct s as [|a s]; simpl in H; [contradiction|].
  destruct (code a =? n) eqn:E; simpl in H; pair_eq.
  exists a. split; [reflexivity | now apply Z.eqb_eq].
Qed.

Lemma code_inj (a b : ascii) : code a = code b -> a = b.
Proof.
  unfold code. intros H. apply N2Z.inj in H.
  rewrite <- (ascii_N_embedding a), <- (ascii_N_embedding b). now rewrite H.
Qed.

Lemma code_hyphen (c : ascii) : code c = 45 -> c = "-"%char.
Proof. intros H. now apply code_inj. Qed.

(** Every match of the expression splits the text into the three fields. *)
Lemma date_matches_In (s y m d r : str) :
  In (y, m, d, r) (date_matches s) ->
  s = y ++ "-"%char :: m ++ "-"%char :: d ++ r /\
  year_text y = true /\ month_text m = true /\ day_text d = true.
Proof.
  unfold date_matches. intros H.
  apply in_flat_map in H as [[y' r1] [Hy H]]. cbn [fst snd] in H.
  apply in_flat_map in H as [[h1 r2] [Hh1 H]]. cbn [fst snd] in H.
  apply in_flat_map in H as [[m' r3] [Hm H]]. cbn [fst snd] in H.
  apply in_flat_map in H as [[h2 r4] [Hh2 H]]. cbn [fst snd] in H.
  apply in_map_iff in H as [[d' r5] [E Hd]]. cbn [fst snd] in E.
  injection E as <- <- <- <-.
  apply re_Y_In in Hy as [-> Hy]. apply re_m_In in Hm as [-> Hm].
  apply re_day_In in Hd as [-> Hd].
  apply re_lit_In in Hh1 as [c1 [-> C1]]. apply re_lit_In in Hh2 as [c2 [-> C2]].
  apply code_hyphen in C1, C2. subst. auto.
Qed.

Ltac split_tests :=
  repeat match goal with
  | H : (_ || _) = true |- _ => apply orb_true_iff in H as [H | H]
  | H : (_ && _) = true |- _ => apply andb_true_iff in H as [? ?]
  end.

Ltac regex_head :=
  simpl;
  repeat (match goal with
          | |- context [if ?b then _ else _] => destruct b eqn:?
          end; simpl);
  first [ eexists; reflexivity
        | exfalso; char_facts; lia
        | exfalso;
          match goal with
          | H : _ = true |- _ => vm_compute in H; discriminate H
          end ].

Lemma re_Y_head (y r : str) :
  year_text y = true -> re_Y (y ++ r) = [(y, r)].
Proof.
  unfold year_text. intros H. apply andb_true_iff in H as [Hlen Hd].
  destruct y as [|a [|b [|c [|d [|e y]]]]]; try discriminate.
  simpl in Hd. split_tests.
  unfold re_Y, re_seq, re_d, re_char. simpl. use_tests. simpl.
  use_tests. simpl. use_tests. simpl. use_tests. reflexivity.
Qed.

Lemma re_m_head (m r : str) :
  month_text m = true ->
  exists l, re_m (m ++ "-"%char :: r) = (m, "-"%char :: r) :: l.
Proof.
  intros H. unfold re_m, re_alt, re_seq, re_lit, re_range, re_char.
  destruct m as [|a [|c [|e m]]]; try discriminate; simpl in H; split_tests;
    regex_head.
Qed.

Lemma re_day_head (d : str) :
  day_text d = true -> exists l, re_day d = (d, []) :: l.
Proof.
  intros H. unfold re_day, re_alt, re_seq, re_lit, re_range, re_d, re_char.
  destruct d as [|a [|c [|e d]]]; try discriminate; simpl in H; split_tests;
    regex_head.
Qed.

(** The first match of a text made of the three fields is the text itself. *)
Lemma date_matches_head (y m d : str) :
  year_text y = true -> month_text m = true -> day_text d = true ->
  exists l, date_matches (y ++ "-"%char :: m ++ "-"%char :: d) = (y, m, d, []) :: l.
Proof.
  intros Hy Hm Hd. unfold date_matches.
  rewrite (re_Y_head _ _ Hy). cbn [flat_map fst snd]. rewrite app_nil_r.
  change (re_lit 45 ("-"%char :: m ++ "-"%char :: d))
    with [(["-"%char], m ++ "-"%char :: d)].
  cbn [flat_map fst snd]. rewrite app_nil_r.
  destruct (re_m_head m d Hm) as [lm ->]. cbn [flat_map fst snd].
  change (re_lit 45 ("-"%char :: d)) with [(["-"%char], d)].
  cbn [flat_map fst snd]. rewrite app_nil_r.
  destruct (re_day_head d Hd) as [ld ->]. cbn [map fst snd app].
  eexists. reflexivity.
Qed.

(** What [valid_date] accepts: the year, month and day fields joined by
    hyphens, with nothing before or after, naming a date that exists. *)
Lemma valid_date_iff (s : str) :
  valid_date s = true <->
  exists y m d,
    s = y ++ "-"%char :: m ++ "-"%char :: d /\
    year_text y = true /\ month_text m = true /\ day_text d = true /\
    date_ok (digits_value y) (digits_value m) (digits_value (lstrip_with isspace d)) = true.
Proof.
  unfold valid_date, strptime. split.
  - destruct (date_matches s) as [|[[[y m] d] r] l] eqn:E; [discriminate|].
    destruct r; [|discriminate].
    destruct (date_ok _ _ _) eqn:Hok; [|discriminate]. intros _.
    assert (Hin : In (y, m, d, []) (date_matches s)) by (rewrite E; now left).
    apply date_matches_In in Hin as (Hs & Hy & Hm & Hd).
    rewrite app_nil_r in Hs. now exists y, m, d.
  - intros (y & m & d & -> & Hy & Hm & Hd & Hok).
    destruct (date_matches_head y m d Hy Hm Hd) as [l ->]. now rewrite Hok.
Qed.

(** C2. [valid_date] rejects "2024-02-30" and "2023-02-29" and accepts
    "2024-02-29"; but it also accepts dates whose month or day is written
    with one digit, or with a space before a one-digit day, which are not
    of the form YYYY-MM-DD. *)
Theorem valid_date_cases :
  valid_date (lit "2024-02-30") = false
  /\ valid_date (lit "2024-02-29") = true
  /\ valid_date (lit "2023-02-29") = false
  /\ valid_date (lit "2024-1-5") = true
  /\ valid_date (lit "2024-01- 5") = true.
Proof. repeat split; reflexivity. Qed.

(** Two purchases of the same month, one dated with a one-digit month
    that [valid_date] accepted, are reported under two month keys. *)
Lemma monthly_summary_one_digit_month :
  valid_date (lit "2024-01-05") = true /\ valid_date (lit "2024-1-7") = true /\
  keys (monthly_summary
          [ {| amount := 1; category := lit "Food"; date := lit "2024-01-05";
               description := [] |};
            {| amount := 2; category := lit "Food"; date := lit "2024-1-7";
               description := [] |} ])
  = [lit "2024-01"; lit "2024-1-"].
Proof. repeat split; reflexivity. Qed.





(** ** Search *)











(** ** Category resolution in the add and edit flows *)

Lemma add_category_spec (line : str) :
  (In (strip line) CATEGORIES -> add_category line = strip line) /\
  (~ In (strip line) CATEGORIES -> add_category line = lit "Other").
Proof.
  unfold add_category. destruct (strip line) as [|c t] eqn:E.
  - split; [|reflexivity]. intros H. apply str_in_In in H. discriminate H.
  - cbn [is_empty]. destruct (str_in (c :: t) CATEGORIES) eqn:Hin; simpl; split;
      try reflexivity; intros H.
    + apply str_in_In in Hin. contradiction.
    + apply str_in_not_In in Hin. contradiction.
Qed.

Lemma edit_record_category (e : Expense) (new_amt new_cat new_date new_desc : str) :
  (new_cat = [] -> category (edit_record e new_amt new_cat new_date new_desc) = category e) /\
  (In new_cat CATEGORIES ->
   category (edit_record e new_amt new_cat new_date new_desc) = new_cat) /\
  (new_cat <> [] -> ~ In new_cat CATEGORIES ->
   category (edit_record e new_amt new_cat new_date new_desc) = lit "Other").
Proof.
  unfold edit_record. cbn [category]. repeat split.
  - now intros ->.
  - intros H. pose proof H as H'. apply str_in_In in H'. rewrite H'.
    destruct new_cat; [|reflexivity]. discriminate H'.
  - intros Hne H. apply str_in_not_In in H. rewrite H.
    now destruct new_cat.
Qed.

Lemma nth_error_replace_nth {A} (l : list A) (i : nat) (x y : A) :
  nth_error l i = Some y -> nth_error (replace_nth i x l) i = Some x.
Proof.
  revert i. induction l as [|z l IH]; intros [|i] H; simpl in *;
    try discriminate; [reflexivity | now apply IH].
Qed.

(** The run of [edit_expense_flow] that reaches the update of record
    number [i + 1]. *)
Lemma edit_expense_flow_run (expenses : list Expense) (idx l1 l2 l3 l4 : str)
  (more : list str) (f : csv_file) (i : nat) (e0 : Expense) :
  py_int (strip idx) = Some (Z.of_nat i + 1) ->
  nth_error expenses i = Some e0 ->
  let e1 := edit_record e0 (strip l1) (strip l2) (strip l3) (strip l4) in
  edit_expense_flow expenses (idx :: l1 :: l2 :: l3 :: l4 :: more) f
  = Some (replace_nth i e1 expenses, save_expenses (replace_nth i e1 expenses) f).
Proof.
  intros Hint Hnth e1. unfold edit_expense_flow.
  assert (Hlen : (i < length expenses)%nat) by (apply nth_error_Some; congruence).
  destruct expenses as [|e es]; [simpl in Hlen; lia|]. cbn [is_empty].
  destruct (strip idx) as [|c t] eqn:E; [discriminate Hint|]. cbn [is_empty].
  rewrite Hint. replace (Z.of_nat i + 1 - 1) with (Z.of_nat i) by lia.
  rewrite Nat2Z.id, Hnth.
  replace ((Z.of_nat i <? 0) || (Z.of_nat (length (e :: es)) <=? Z.of_nat i)) with false.
  - reflexivity.
  - symmetry. apply orb_false_iff. split; [apply Z.ltb_ge | apply Z.leb_gt]; lia.
Qed.

(** C8 (as amended). In the add flow and in the edit flow the line read
    for the category is first stripped of surrounding white space.  The
    stripped text is kept when it is one of the fixed labels; any other
    stripped text that is not empty becomes "Other".  (An empty one becomes
    "Other" in the add flow and keeps the current category in the edit
    flow.) *)
Theorem category_resolution_spec :
  (forall today inputs amt line rest e rest',
     read_amount inputs = Some (amt, line :: rest) ->
     add_expense_record today inputs = Some (e, rest') ->
     (In (strip line) CATEGORIES -> category e = strip line) /\
     (~ In (strip line) CATEGORIES -> category e = lit "Other"))
  /\
  (forall expenses idx l1 l2 l3 l4 more f i e0,
     py_int (strip idx) = Some (Z.of_nat i + 1) ->
     nth_error expenses i = Some e0 ->
     exists e1,
       edit_expense_flow expenses (idx :: l1 :: l2 :: l3 :: l4 :: more) f
       = Some (replace_nth i e1 expenses, save_expenses (replace_nth i e1 expenses) f) /\
       nth_error (replace_nth i e1 expenses) i = Some e1 /\
       (strip l2 = [] -> category e1 = category e0) /\
       (In (strip l2) CATEGORIES -> category e1 = strip l2) /\
       (strip l2 <> [] -> ~ In (strip l2) CATEGORIES -> category e1 = lit "Other")).
Proof.
  split.
  - intros today inputs amt line rest e rest' Hread Hadd.
    unfold add_expense_record in Hadd. rewrite Hread in Hadd. cbn [fst snd] in Hadd.
    destruct (read_date today rest) as [[d [|desc in4]]|]; try discriminate.
    cbn [fst snd] in Hadd. destruct (py_float amt); [|discriminate].
    injection Hadd as <- _. cbn [category]. apply add_category_spec.
  - intros expenses idx l1 l2 l3 l4 more f i e0 Hint Hnth.
    exists (edit_record e0 (strip l1) (strip l2) (strip l3) (strip l4)).
    split; [now apply edit_expense_flow_run|].
    split; [now apply nth_error_replace_nth with (y := e0)|].
    apply edit_record_category.
Qed.

(** C8, counterexample. The line " Food" is not blank and is not one of
    the labels, yet both flows store the category "Food", not "Other". *)
Lemma category_resolution_strips :
  ~ In (lit " Food") CATEGORIES
  /\ add_expense_record (lit "2024-03-01")
       [lit "12.5"; lit " Food"; lit "2024-01-05"; lit "lunch"]
     = Some ({| amount := 12.5; category := lit "Food"; date := lit "2024-01-05";
                description := lit "lunch" |}, [])
  /\ option_map fst
       (edit_expense_flow
          [ {| amount := 12.5; category := lit "Bills"; date := lit "2024-01-05";
               description := lit "lunch" |} ]
          [lit "1"; lit ""; lit " Food"; lit ""; lit ""] None)
     = Some [ {| amount := 12.5; category := lit "Food"; date := lit "2024-01-05";
                 description := lit "lunch" |} ].
Proof.
  repeat split; try reflexivity.
  apply str_in_not_In. reflexivity.
Qed.

(** Runs of the two flows: a label is kept, any other text becomes
    "Other", a blank line becomes "Other" when adding and keeps the
    category when editing. *)
Lemma category_resolution_samples :
  option_map (fun r => category (fst r))
    (add_expense_record (lit "2024-03-01")
       [lit "abc"; lit "99.50"; lit "Transport"; lit ""; lit "bus"])
  = Some (lit "Transport")
  /\ option_map (fun r => (category (fst r), date (fst r)))
       (add_expense_record (lit "2024-03-01")
          [lit "99.50"; lit "transport"; lit "2024-02-30"; lit "2024-02-29"; lit "bus"])
     = Some (lit "Other", lit "2024-02-29")
  /\ option_map (fun r => category (fst r))
       (add_expense_record (lit "2024-03-01") [lit "99.50"; lit "  "; lit ""; lit ""])
     = Some (lit "Other")
  /\ option_map (fun r => map category (fst r))
       (edit_expense_flow sample_expenses
          [lit "2"; lit ""; lit "Health"; lit ""; lit ""] None)
     = Some [lit "Food"; lit "Health"; lit "Food"]
  /\ option_map (fun r => map category (fst r))
       (edit_expense_flow sample_expenses
          [lit "3"; lit ""; lit "groceries"; lit ""; lit ""] None)
     = Some [lit "Food"; lit "Bills"; lit "Other"]
  /\ option_map (fun r => map category (fst r))
       (edit_expense_flow sample_expenses
          [lit "1"; lit "5"; lit " "; lit ""; lit ""] None)
     = Some [lit "Food"; lit "Bills"; lit "Food"].
Proof. repeat split; reflexivity. Qed.

(** Searches on the sample records. *)
Lemma search_expenses_flow_samples :
  map description (search_expenses_flow sample_expenses (lit "FOOD")) = [lit "tea"; lit "bread"]
  /\ map description (search_expenses_flow sample_expenses (lit "  Rea ")) = [lit "bread"]
  /\ map description (search_expenses_flow sample_expenses (lit "-02-")) = [lit "stamp"]
  /\ search_expenses_flow sample_expenses (lit "   ") = []
  /\ search_expenses_flow sample_expenses (lit "xyz") = [].
Proof. repeat split; reflexivity. Qed.

(** ** Two further facts about the code *)

(** [valid_date] accepts exactly the texts made of a four-digit year, a
    month written 1-9, 01-09 or 10-12 and a day written 1-9, 01-09, 10-31
    or as a space and 1-9, joined by hyphens, that name an existing date
    of the years 1 to 9999. *)
Theorem valid_date_accepts (s : str) :
  valid_date s = true <->
  exists y m d,
    s = y ++ "-"%char :: m ++ "-"%char :: d /\
    year_text y = true /\ month_text m = true /\ day_text d = true /\
    date_ok (digits_value y) (digits_value m) (digits_value (lstrip_with isspace d)) = true.
Proof. apply valid_date_iff. Qed.

(** [float] never rejects an amount that [to_row] wrote: whatever the
    amount, infinite or NaN included, the row is decoded again. *)
Theorem float_reads_to_row (e : Expense) :
  exists x, py_float (nth 2 (to_row e) []) = Some x /\ x = two_decimals (amount e).
Proof.
  exists (two_decimals (amount e)). split; [apply py_float_format_2f | reflexivity].
Qed.

(* ================================================================= *)
(** * Further properties of the code *)

(** ** Appending a record *)








(** ** The add flow *)

Lemma valid_amount_nonnegative (s : str) :
  valid_amount s = true -> exists v, py_float s = Some v /\ nonnegative v.
Proof.
  unfold valid_amount. destruct (py_float s) as [v|]; [|discriminate].
  intros H. exists v. split; [reflexivity | now apply leb_zero_nonnegative].
Qed.

Lemma read_amount_iff (inputs : list str) (amt : str) (rest : list str) :
  read_amount inputs = Some (amt, rest) <->
  exists bad line,
    inputs = bad ++ line :: rest /\ amt = strip line /\
    valid_amount (strip line) = true /\
    Forall (fun l => valid_amount (strip l) = false) bad.
Proof.
  split.
  - revert amt rest. induction inputs as [|l inputs IH]; intros amt rest H;
      [discriminate|].
    cbn [read_amount] in H. destruct (valid_amount (strip l)) eqn:V.
    + injection H as <- <-. exists [], l. repeat split; auto.
    + apply IH in H as (bad & line & -> & -> & Hv & Hbad).
      exists (l :: bad), line. repeat split; auto.
  - intros (bad & line & -> & -> & Hv & Hbad).
    induction Hbad as [|l bad Hl Hbad IH]; cbn [app read_amount].
    + now rewrite Hv.
    + now rewrite Hl.
Qed.

(** The amount prompt is repeated until an answer is a valid amount:
    [read_amount] gives the first line whose stripped text [valid_amount]
    accepts, stripped, and the lines after it; it fails, at the end of
    the input, exactly when no line is a valid amount. *)
Theorem read_amount_spec (inputs : list str) :
  (forall amt rest,
     read_amount inputs = Some (amt, rest) <->
     exists bad line,
       inputs = bad ++ line :: rest /\ amt = strip line /\
       valid_amount (strip line) = true /\
       Forall (fun l => valid_amount (strip l) = false) bad)
  /\ (read_amount inputs = None <->
      Forall (fun l => valid_amount (strip l) = false) inputs).
Proof.
  split; [intros; apply read_amount_iff|].
  induction inputs as [|l inputs IH]; cbn [read_amount].
  - split; [constructor | reflexivity].
  - destruct (valid_amount (strip l)) eqn:V.
    + split; [discriminate|]. intros H. inversion H; congruence.
    + rewrite IH. split; [now constructor | intros H; now inversion H].
Qed.

Lemma read_amount_valid (inputs : list str) (amt : str) (rest : list str) :
  read_amount inputs = Some (amt, rest) -> valid_amount amt = true.
Proof.
  intros H. apply read_amount_iff in H as (bad & line & _ & -> & Hv & _).
  exact Hv.
Qed.

Lemma read_date_valid (today : str) (inputs : list str) (d : str) (rest : list str) :
  read_date today inputs = Some (d, rest) -> d = today \/ valid_date d = true.
Proof.
  revert d rest. induction inputs as [|l inputs IH]; intros d rest H;
    [discriminate|].
  cbn [read_date] in H. destruct (is_empty (strip l)).
  - injection H as <- _. now left.
  - destruct (valid_date (strip l)) eqn:V.
    + injection H as <- _. now right.
    + now apply IH in H.
Qed.

Lemma add_category_in (line : str) : In (add_category line) CATEGORIES.
Proof.
  destruct (add_category_spec line) as [H1 H2].
  destruct (str_in (strip line) CATEGORIES) eqn:E.
  - apply str_in_In in E. now rewrite (H1 E).
  - apply str_in_not_In in E. rewrite (H2 E). apply str_in_In. reflexivity.
Qed.

(** Every record that the add flow builds has an amount that is a
    number and is not below zero, one of the fixed categories, and a date
    that is valid (today's date when the answer was blank). *)
Theorem add_expense_record_valid (today : str) (inputs : list str)
  (e : Expense) (rest : list str) :
  valid_date today = true ->
  add_expense_record today inputs = Some (e, rest) ->
  valid_record e.
Proof.
  intros Ht H. unfold add_expense_record in H.
  destruct (read_amount inputs) as [[amt in1]|] eqn:Ha; [|discriminate].
  cbn [fst snd] in H. destruct in1 as [|cat_line in2]; [discriminate|].
  destruct (read_date today in2) as [[d in3]|] eqn:Hd; [|discriminate].
  cbn [fst snd] in H. destruct in3 as [|desc_line in4]; [discriminate|].
  apply read_amount_valid, valid_amount_nonnegative in Ha as (v & Hv & Hn).
  rewrite Hv in H. injection H as <- _.
  unfold valid_record. cbn [amount category date]. repeat split.
  - exact Hn.
  - apply add_category_in.
  - apply read_date_valid in Hd as [-> | Hd]; assumption.
Qed.

Lemma add_expense_record_valid_sample :
  valid_record
    {| amount := 99.5; category := lit "Other"; date := lit "2024-02-29";
       description := lit "bus" |}.
Proof.
  apply (add_expense_record_valid (lit "2024-03-01")
           [lit "-3"; lit "99.50"; lit "transport"; lit "2024-02-30";
            lit "2024-02-29"; lit " bus "] _ []); reflexivity.
Defined.



(** ** The edit and delete flows *)



Lemma Forall_replace_nth {A} (P : A -> Prop) (i : nat) (x : A) (l : list A) :
  P x -> Forall P l -> Forall P (replace_nth i x l).
Proof.
  intros Hx Hl. revert i. induction Hl as [|y l Hy Hl IH]; intros [|i]; simpl;
    constructor; auto.
Qed.

Lemma remove_nth_firstn_skipn {A} (i : nat) (l : list A) :
  remove_nth i l = firstn i l ++ skipn (S i) l.
Proof.
  revert i. induction l as [|y l IH]; intros [|i]; simpl; try reflexivity.
  now rewrite IH.
Qed.

(** A blank answer, an answer that is not an integer and a number that
    is not between 1 and the number of records make the edit flow and the
    delete flow return at once: the list and the file stay as they are, and
    so they do when the list is empty. *)
Theorem edit_delete_no_selection (expenses : list Expense) (line : str)
  (rest : list str) (f : csv_file) :
  no_selection (length expenses) line ->
  edit_expense_flow expenses (line :: rest) f = Some (expenses, f) /\
  delete_expense_flow expenses (line :: rest) f = Some (expenses, f).
Proof.
  intros H. unfold edit_expense_flow, delete_expense_flow.
  destruct expenses as [|e es]; [now split|]. cbn [is_empty].
  destruct H as [H | [H | (k & H & Hk)]].
  - rewrite H. now split.
  - rewrite H. destruct (strip line); now split.
  - rewrite H.
    replace ((k - 1 <? 0) || (Z.of_nat (length (e :: es)) <=? k - 1)) with true.
    + destruct (strip line); now split.
    + symmetry. apply orb_true_iff.
      destruct Hk; [left; apply Z.ltb_lt | right; apply Z.leb_le]; lia.
Qed.

Lemma edit_delete_no_selection_sample :
  edit_expense_flow sample_expenses [lit "4"; lit "5"] None = Some (sample_expenses, None) /\
  delete_expense_flow sample_expenses [lit "4"; lit "5"] None = Some (sample_expenses, None).
Proof.
  apply (edit_delete_no_selection sample_expenses (lit "4") [lit "5"] None).
  right. right. exists 4. split; [reflexivity | right; simpl; lia].
Defined.


Lemma edit_record_valid (e : Expense) (new_amt new_cat new_date new_desc : str) :
  valid_record e -> valid_record (edit_record e new_amt new_cat new_date new_desc).
Proof.
  intros (Ha & Hc & Hd). unfold valid_record, edit_record.
  cbn [amount category date]. repeat split.
  - destruct (is_empty new_amt); [assumption|].
    destruct (valid_amount new_amt) eqn:V; [|assumption].
    apply valid_amount_nonnegative in V as (v & -> & Hv). exact Hv.
  - destruct (is_empty new_cat); [assumption|].
    destruct (str_in new_cat CATEGORIES) eqn:E.
    + now apply str_in_In.
    + apply str_in_In. reflexivity.
  - destruct (is_empty new_date); [assumption|].
    now destruct (valid_date new_date) eqn:V.
Qed.

(** The edit flow keeps records valid, whatever is answered: an answer
    that is not a valid amount or date leaves the field as it was, and a
    category outside the fixed set becomes "Other". *)
Theorem edit_expense_flow_valid (expenses : list Expense) (inputs : list str)
  (f : csv_file) (expenses' : list Expense) (f' : csv_file) :
  Forall valid_record expenses ->
  edit_expense_flow expenses inputs f = Some (expenses', f') ->
  Forall valid_record expenses'.
Proof.
  intros Hv H. unfold edit_expense_flow in H.
  destruct (is_empty expenses); [now injection H as <- _|].
  destruct inputs as [|idx_line in1]; [discriminate|].
  destruct (is_empty (strip idx_line)); [now injection H as <- _|].
  destruct (py_int (strip idx_line)) as [n|]; [|now injection H as <- _].
  destruct ((n - 1 <? 0) || (Z.of_nat (length expenses) <=? n - 1));
    [now injection H as <- _|].
  destruct (nth_error expenses (Z.to_nat (n - 1))) as [e|] eqn:E; [|discriminate].
  destruct in1 as [|l1 [|l2 [|l3 [|l4 more]]]]; try discriminate.
  injection H as <- _. apply Forall_replace_nth; [|assumption].
  apply edit_record_valid. rewrite Forall_forall in Hv. apply Hv.
  now apply nth_error_In in E.
Qed.

(** The delete flow removes the chosen record, and saves the list, only
    when the confirmation is exactly [YES] once stripped; the other records
    keep their order.  Any other confirmation changes nothing. *)
Theorem delete_expense_flow_spec (expenses : list Expense) (idx confirm : str)
  (more : list str) (f : csv_file) (i : nat) :
  py_int (strip idx) = Some (Z.of_nat i + 1) ->
  (i < length expenses)%nat ->
  (strip confirm = lit "YES" ->
   delete_expense_flow expenses (idx :: confirm :: more) f
   = Some (firstn i expenses ++ skipn (S i) expenses,
           Some (CSV_HEADER :: map to_row (firstn i expenses ++ skipn (S i) expenses))))
  /\ (strip confirm <> lit "YES" ->
      delete_expense_flow expenses (idx :: confirm :: more) f = Some (expenses, f)).
Proof.
  intros Hint Hlen. unfold delete_expense_flow.
  destruct expenses as [|e es]; [simpl in Hlen; lia|]. cbn [is_empty].
  destruct (strip idx) as [|c t] eqn:E; [discriminate Hint|]. cbn [is_empty].
  rewrite Hint. replace (Z.of_nat i + 1 - 1) with (Z.of_nat i) by lia.
  replace ((Z.of_nat i <? 0) || (Z.of_nat (length (e :: es)) <=? Z.of_nat i)) with false.
  2:{ symmetry. apply orb_false_iff. split; [apply Z.ltb_ge | apply Z.leb_gt]; lia. }
  rewrite Nat2Z.id. split; intros Hc.
  - rewrite Hc. cbn [str_eqb]. change (str_eqb (lit "YES") (lit "YES")) with true.
    cbv iota. now rewrite save_expenses_rows, remove_nth_firstn_skipn.
  - apply str_eqb_neq in Hc. now rewrite Hc.
Qed.


Lemma sample_expenses_valid : Forall valid_record sample_expenses.
Proof.
  repeat constructor; try reflexivity; cbn; tauto.
Qed.

Lemma edit_expense_flow_valid_sample :
  Forall valid_record
    [ {| amount := 0.1; category := lit "Food"; date := lit "2024-01-05";
         description := lit "tea" |};
      {| amount := 0.2; category := lit "Other"; date := lit "2024-02-05";
         description := lit "stamp" |};
      {| amount := 0.6; category := lit "Food"; date := lit "2024-01-09";
         description := lit "bread" |} ].
Proof.
  apply (edit_expense_flow_valid sample_expenses
           [lit "2"; lit "-4"; lit "rent"; lit "2024-02-30"; lit ""] None _
           (save_expenses
              [ {| amount := 0.1; category := lit "Food"; date := lit "2024-01-05";
                   description := lit "tea" |};
                {| amount := 0.2; category := lit "Other"; date := lit "2024-02-05";
                   description := lit "stamp" |};
                {| amount := 0.6; category := lit "Food"; date := lit "2024-01-09";
                   description := lit "bread" |} ] None)).
  - exact sample_expenses_valid.
  - reflexivity.
Defined.

Lemma delete_expense_flow_sample :
  (strip (lit " YES ") = lit "YES" ->
   delete_expense_flow sample_expenses [lit "2"; lit " YES "] None
   = Some (firstn 1 sample_expenses ++ skipn 2 sample_expenses,
           Some (CSV_HEADER :: map to_row (firstn 1 sample_expenses ++ skipn 2 sample_expenses))))
  /\ (strip (lit " YES ") <> lit "YES" ->
      delete_expense_flow sample_expenses [lit "2"; lit " YES "] None
      = Some (sample_expenses, None)).
Proof.
  apply (delete_expense_flow_spec sample_expenses (lit "2") (lit " YES ") [] None 1).
  - reflexivity.
  - simpl. lia.
Defined.

(** ** Backups *)


Lemma str_leb_total (a b : str) : str_leb a b = true \/ str_leb b a = true.
Proof.
  revert b. induction a as [|x a IH]; intros [|y b]; simpl; auto.
  destruct (code x <? code y) eqn:E1; [now left|].
  destruct (code y <? code x) eqn:E2; [now right|].
  apply IH.
Qed.

Lemma str_leb_trans (a b c : str) :
  str_leb a b = true -> str_leb b c = true -> str_leb a c = true.
Proof.
  revert b c. induction a as [|x a IH]; intros [|y b] [|z c]; simpl; auto;
    try discriminate.
  destruct (code x <? code y) eqn:E1, (code y <? code z) eqn:E2;
    destruct (code x <? code z) eqn:E3; auto;
    destruct (code y <? code x) eqn:E4; try discriminate;
    destruct (code z <? code y) eqn:E5; try discriminate;
    destruct (code z <? code x) eqn:E6; intros H1 H2;
    try (apply Z.ltb_lt in E1); try (apply Z.ltb_lt in E2);
    try (apply Z.ltb_ge in E1); try (apply Z.ltb_ge in E2);
    try (apply Z.ltb_ge in E3); try (apply Z.ltb_ge in E4);
    try (apply Z.ltb_ge in E5); try (apply Z.ltb_lt in E6);
    try lia; eauto.
Qed.

Lemma str_leb_antisym (a b : str) :
  str_leb a b = true -> str_leb b a = true -> a = b.
Proof.
  revert b. induction a as [|x a IH]; intros [|y b]; simpl; try discriminate; auto.
  destruct (code x <? code y) eqn:E1, (code y <? code x) eqn:E2; try discriminate.
  - apply Z.ltb_lt in E1, E2. lia.
  - intros H1 H2. apply Z.ltb_ge in E1, E2.
    assert (x = y) by (apply code_inj; lia). subst. f_equal. now apply IH.
Qed.



Lemma insert_sorted_perm (x : str) (l : list str) :
  Permutation (insert_sorted x l) (x :: l).
Proof.
  induction l as [|y l IH]; simpl; [reflexivity|].
  destruct (str_leb x y); [reflexivity|].
  rewrite IH. apply perm_swap.
Qed.

Lemma sorted_perm (l : list str) : Permutation (sorted l) l.
Proof.
  induction l as [|x l IH]; simpl; [reflexivity|].
  rewrite insert_sorted_perm. now constructor.
Qed.

Lemma insert_sorted_Sorted (x : str) (l : list str) :
  Sorted (fun a b => str_leb a b = true) l ->
  Sorted (fun a b => str_leb a b = true) (insert_sorted x l).
Proof.
  intros H. induction H as [|y l Hl IH Hd]; simpl.
  - repeat constructor.
  - destruct (str_leb x y) eqn:E.
    + repeat constructor; assumption.
    + constructor; [assumption|].
      assert (Hyx : str_leb y x = true)
        by (destruct (str_leb_total x y); congruence).
      destruct Hd as [|z l' Hz]; simpl.
      * now constructor.
      * destruct (str_leb x z); now constructor.
Qed.

Lemma sorted_Sorted (l : list str) :
  Sorted (fun a b => str_leb a b = true) (sorted l).
Proof.
  induction l as [|x l IH]; simpl; [constructor|].
  now apply insert_sorted_Sorted.
Qed.

Lemma ends_with_app (suffix s : str) :
  ends_with suffix s = true <-> exists a, s = a ++ suffix.
Proof.
  unfold ends_with. rewrite starts_with_app. split.
  - intros [r H]. exists (rev r).
    rewrite <- (rev_involutive s), H, rev_app_distr. now rewrite rev_involutive.
  - intros [a ->]. exists (rev a). apply rev_app_distr.
Qed.

Lemma map_fst_write_file (name : str) (content : list (list str)) (d : directory) :
  map fst (write_file name content d)
  = if str_in name (map fst d) then map fst d else map fst d ++ [name].
Proof.
  induction d as [|[n c] d IH]; [reflexivity|].
  unfold str_in in *. simpl.
  destruct (str_eqb name n); simpl; [reflexivity|].
  rewrite IH. now destruct (existsb (str_eqb name) (map fst d)).
Qed.

Lemma lookup_write_file_same (name : str) (content : list (list str)) (d : directory) :
  lookup name (write_file name content d) = Some content.
Proof.
  induction d as [|[n c] d IH]; simpl.
  - now rewrite str_eqb_refl.
  - destruct (str_eqb name n) eqn:E; simpl; now rewrite E.
Qed.

Lemma lookup_write_file_other (name n : str) (content : list (list str)) (d : directory) :
  n <> name -> lookup n (write_file name content d) = lookup n d.
Proof.
  intros Hne. induction d as [|[n' c] d IH]; simpl.
  - apply str_eqb_neq in Hne. now rewrite Hne.
  - destruct (str_eqb name n') eqn:E; simpl.
    + apply str_eqb_eq in E. subst n'.
      apply str_eqb_neq in Hne. now rewrite Hne.
    + now rewrite IH.
Qed.

Lemma lookup_In (n : str) (d : directory) (c : list (list str)) :
  lookup n d = Some c -> In (n, c) d.
Proof.
  induction d as [|[n' c'] d IH]; simpl; [discriminate|].
  destruct (str_eqb n n') eqn:E.
  - intros H. injection H as ->. apply str_eqb_eq in E. subst. now left.
  - intros H. right. now apply IH.
Qed.

Lemma In_list_backups (d : disk) (name : str) :
  In name (list_backups d) <->
  ends_with (lit ".csv") name = true /\
  exists dir, backup_dir d = Some dir /\ In name (map fst dir).
Proof.
  unfold list_backups. destruct (backup_dir d) as [dir|].
  - split.
    + intros H. apply (Permutation_in _ (sorted_perm _)) in H.
      apply filter_In in H as [H1 H2]. split; [assumption|]. now exists dir.
    + intros [H1 [dir' [E H2]]]. injection E as <-.
      apply (Permutation_in _ (Permutation_sym (sorted_perm _))).
      apply filter_In. now split.
  - split; [intros [] | intros [_ [dir [E _]]]; discriminate].
Qed.

(** [list_backups] lists the names of the backup directory that end in
    [.csv] and no others, in ascending order, each as often as the
    directory holds it; an absent directory gives the empty list. *)
Theorem list_backups_spec (d : disk) :
  StronglySorted (fun a b => str_leb a b = true) (list_backups d)
  /\ Permutation (list_backups d)
       (filter (ends_with (lit ".csv"))
          (map fst (match backup_dir d with Some dir => dir | None => [] end)))
  /\ (forall name, In name (list_backups d) <->
        ends_with (lit ".csv") name = true /\
        exists dir, backup_dir d = Some dir /\ In name (map fst dir)).
Proof.
  split; [|split].
  - apply Sorted_StronglySorted.
    + intros a b c. apply str_leb_trans.
    + unfold list_backups. destruct (backup_dir d); [apply sorted_Sorted | constructor].
  - unfold list_backups. destruct (backup_dir d); [apply sorted_perm | reflexivity].
  - apply In_list_backups.
Qed.



Lemma backup_name_listed (ts : str) (d : disk) :
  In (backup_name ts) (list_backups (create_backup ts d)).
Proof.
  apply In_list_backups. split.
  - apply ends_with_app. exists (lit "expenses_backup_" ++ ts).
    unfold backup_name. now rewrite app_assoc.
  - unfold create_backup. cbn [backup_dir].
    destruct (data_file d) as [rows|]; cbn [ensure_data_file];
      eexists; (split; [reflexivity|]);
      rewrite map_fst_write_file;
      match goal with
      | |- context [str_in ?n ?l] => destruct (str_in n l) eqn:E
      end;
      try (now apply str_in_In); apply in_or_app; right; now left.
Qed.

Lemma create_backup_content (ts : str) (d : disk) :
  exists dir,
    backup_dir (create_backup ts d) = Some dir /\
    lookup (backup_name ts) dir = Some (rows_of (data_file d)).
Proof.
  unfold create_backup, rows_of. cbn [backup_dir].
  destruct (data_file d) as [rows|]; cbn [ensure_data_file];
    eexists; (split; [reflexivity | apply lookup_write_file_same]).
Qed.

(** The run of [restore_backup] that copies backup number [i + 1]. *)
Lemma restore_backup_run (d : disk) (dir : directory) (line : str)
  (rest : list str) (i : nat) (name : str) (content : list (list str)) :
  backup_dir d = Some dir ->
  nth_error (list_backups d) i = Some name ->
  lookup name dir = Some content ->
  py_int (strip line) = Some (Z.of_nat i + 1) ->
  restore_backup (line :: rest) d
  = Some ({| data_file := Some content; backup_dir := backup_dir d |}, rest).
Proof.
  intros Hdir Hnth Hlook Hint. unfold restore_backup.
  assert (Hlen : (i < length (list_backups d))%nat)
    by (apply nth_error_Some; congruence).
  destruct (list_backups d) as [|b bs] eqn:Eb; [simpl in Hlen; lia|]. cbn [is_empty].
  destruct (strip line) as [|c t] eqn:E; [discriminate Hint|]. cbn [is_empty].
  rewrite Hint. replace (Z.of_nat i + 1 - 1) with (Z.of_nat i) by lia.
  replace ((Z.of_nat i <? 0) || (Z.of_nat (length (b :: bs)) <=? Z.of_nat i)) with false.
  2:{ symmetry. apply orb_false_iff. split; [apply Z.ltb_ge | apply Z.leb_gt]; lia. }
  now rewrite Nat2Z.id, Hnth, Hdir, Hlook.
Qed.

(** Backup and restore: after [create_backup] the new backup is in the
    list, and as long as the backup directory stays as it is, choosing its
    number restores the rows that the data file had when the backup was
    made, whatever has happened to the data file since. *)
Theorem backup_restore_round_trip (ts : str) (d d' : disk) :
  backup_dir d' = backup_dir (create_backup ts d) ->
  exists i,
    nth_error (list_backups d') i = Some (backup_name ts) /\
    forall line rest,
      py_int (strip line) = Some (Z.of_nat i + 1) ->
      restore_backup (line :: rest) d'
      = Some ({| data_file := Some (rows_of (data_file d));
                 backup_dir := backup_dir d' |}, rest).
Proof.
  intros Hdir.
  assert (Hin : In (backup_name ts) (list_backups d')).
  { unfold list_backups. rewrite Hdir. apply (backup_name_listed ts d). }
  apply In_nth_error in Hin as [i Hi]. exists i. split; [assumption|].
  intros line rest Hint.
  destruct (create_backup_content ts d) as (dir & E & Hlook).
  rewrite <- Hdir in E.
  now apply (restore_backup_run d' dir line rest i (backup_name ts)).
Qed.

Lemma backup_restore_round_trip_sample :
  exists i,
    nth_error (list_backups sample_disk) i = Some (backup_name (lit "20240105_120000")) /\
    forall line rest,
      py_int (strip line) = Some (Z.of_nat i + 1) ->
      restore_backup (line :: rest) sample_disk
      = Some ({| data_file := Some (rows_of sample_file);
                 backup_dir := backup_dir sample_disk |}, rest).
Proof.
  apply (backup_restore_round_trip (lit "20240105_120000")
           {| data_file := sample_file; backup_dir := None |} sample_disk).
  reflexivity.
Defined.

(** With no other backup, the new one is number 1. *)
Lemma restore_first_backup_sample :
  list_backups sample_disk = [lit "expenses_backup_20240105_120000.csv"]
  /\ option_map (fun r => data_file (fst r)) (restore_backup [lit " 1 "] sample_disk)
     = Some sample_file.
Proof. split; reflexivity. Qed.

Lemma list_backups_create_backup (ts : str) (d : disk) (name : str) :
  In name (list_backups (create_backup ts d)) <->
  name = backup_name ts \/ In name (list_backups d).
Proof.
  split.
  - intros H. apply In_list_backups in H as [He (dir' & E & Hin)].
    unfold create_backup in E. cbn [backup_dir] in E.
    assert (Hsome : exists rows, ensure_data_file (data_file d) = Some rows)
      by (destruct (data_file d); eexists; reflexivity).
    destruct Hsome as [rows Hr]. rewrite Hr in E. injection E as <-.
    rewrite map_fst_write_file in Hin.
    destruct (backup_dir d) as [dir|] eqn:Ed.
    + destruct (str_in (backup_name ts) (map fst dir)).
      * right. apply In_list_backups. split; [assumption|]. now exists dir.
      * apply in_app_or in Hin as [Hin | [<- | []]]; [right | now left].
        apply In_list_backups. split; [assumption|]. now exists dir.
    + simpl in Hin. destruct Hin as [<- | []]. now left.
  - intros [-> | H]; [apply backup_name_listed|].
    apply In_list_backups in H as [He (dir & E & Hin)].
    apply In_list_backups. split; [assumption|].
    unfold create_backup. cbn [backup_dir]. rewrite E.
    destruct (ensure_data_file (data_file d)) as [rows|].
    + eexists. split; [reflexivity|]. rewrite map_fst_write_file.
      destruct (str_in (backup_name ts) (map fst dir)); [assumption|].
      apply in_or_app. now left.
    + now exists dir.
Qed.

(** [create_backup] leaves the rows of the data file and every backup of
    another name as they are, and lists the new name besides the names
    listed before. *)
Theorem create_backup_frame (ts : str) (d : disk) :
  rows_of (data_file (create_backup ts d)) = rows_of (data_file d)
  /\ (forall name, In name (list_backups (create_backup ts d)) <->
        name = backup_name ts \/ In name (list_backups d))
  /\ (forall name dir dir',
        name <> backup_name ts ->
        backup_dir d = Some dir -> backup_dir (create_backup ts d) = Some dir' ->
        lookup name dir' = lookup name dir).
Proof.
  split; [|split].
  - unfold create_backup, rows_of. cbn [data_file]. now destruct (data_file d).
  - apply list_backups_create_backup.
  - intros name dir dir' Hne Ed E. unfold create_backup in E. cbn [backup_dir] in E.
    rewrite Ed in E. destruct (ensure_data_file (data_file d)) as [rows|].
    + injection E as <-. now apply lookup_write_file_other.
    + now injection E as <-.
Qed.

(** Two backups made within the same second have the same name: the
    second replaces the first, and the list of backups does not grow. *)
Theorem create_backup_same_second (ts : str) (d : disk) (f2 : csv_file) :
  list_backups
    (create_backup ts {| data_file := f2; backup_dir := backup_dir (create_backup ts d) |})
  = list_backups (create_backup ts d)
  /\ exists dir,
       backup_dir
         (create_backup ts
            {| data_file := f2; backup_dir := backup_dir (create_backup ts d) |})
       = Some dir /\
       lookup (backup_name ts) dir = Some (rows_of f2).
Proof.
  split.
  - unfold list_backups, create_backup. cbn [backup_dir data_file].
    assert (H1 : exists r1, ensure_data_file (data_file d) = Some r1)
      by (destruct (data_file d); eexists; reflexivity).
    assert (H2 : exists r2, ensure_data_file f2 = Some r2)
      by (destruct f2; eexists; reflexivity).
    destruct H1 as [r1 ->], H2 as [r2 ->].
    f_equal. f_equal. rewrite (map_fst_write_file _ r2).
    replace (str_in (backup_name ts)
               (map fst (write_file (backup_name ts) r1
                           match backup_dir d with Some x => x | None => [] end)))
      with true; [reflexivity|].
    symmetry. apply str_in_In. rewrite map_fst_write_file.
    destruct (str_in (backup_name ts) (map fst _)) eqn:E.
    + now apply str_in_In.
    + apply in_or_app. right. now left.
  - apply (create_backup_content ts
             {| data_file := f2; backup_dir := backup_dir (create_backup ts d) |}).
Qed.

(** [restore_backup] never touches the backup directory, and the data
    file afterwards is either the data file before or a copy of a backup
    that [list_backups] shows. *)
Theorem restore_backup_frame (inputs : list str) (d d' : disk) (rest : list str) :
  restore_backup inputs d = Some (d', rest) ->
  backup_dir d' = backup_dir d /\
  (data_file d' = data_file d \/
   exists name dir content,
     In name (list_backups d) /\ backup_dir d = Some dir /\
     lookup name dir = Some content /\ data_file d' = Some content).
Proof.
  unfold restore_backup. intros H.
  destruct (is_empty (list_backups d)); [injection H as <- _; auto|].
  destruct inputs as [|line rest0]; [discriminate|].
  destruct (is_empty (strip line)); [injection H as <- _; auto|].
  destruct (py_int (strip line)) as [n|]; [|injection H as <- _; auto].
  destruct ((n - 1 <? 0) || _); [injection H as <- _; auto|].
  destruct (nth_error (list_backups d) (Z.to_nat (n - 1))) as [name|] eqn:En;
    [|injection H as <- _; auto].
  destruct (backup_dir d) as [dir|] eqn:Ed.
  - destruct (lookup name dir) as [content|] eqn:El; [|injection H as <- _; auto].
    injection H as <- _. cbn [backup_dir data_file]. split; [reflexivity|].
    right. exists name, dir, content. repeat split; auto.
    now apply nth_error_In in En.
  - simpl in H. injection H as <- _. auto.
Qed.

Lemma restore_backup_frame_sample :
  backup_dir {| data_file := sample_file; backup_dir := backup_dir sample_disk |}
  = backup_dir sample_disk /\
  (data_file {| data_file := sample_file; backup_dir := backup_dir sample_disk |}
   = data_file sample_disk \/
   exists name dir content,
     In name (list_backups sample_disk) /\
     backup_dir sample_disk = Some dir /\
     lookup name dir = Some content /\
     data_file {| data_file := sample_file; backup_dir := backup_dir sample_disk |}
     = Some content).
Proof.
  apply (restore_backup_frame [lit "1"; lit "x"] sample_disk
           {| data_file := sample_file; backup_dir := backup_dir sample_disk |}
           [lit "x"]).
  reflexivity.
Defined.

(** ** Sums of valid amounts *)

Lemma iter_pos_invariant {A} (P : A -> Prop) (f : A -> A) (p : positive) (x : A) :
  (forall y, P y -> P (f y)) -> P x -> P (iter_pos f p x).
Proof.
  intros Hf. revert x. induction p as [p IH|p IH|]; intros x Hx; simpl; auto.
Qed.

Lemma shr_1_nonneg (mrs : shr_record) : 0 <= shr_m mrs -> 0 <= shr_m (shr_1 mrs).
Proof.
  destruct mrs as [m r s]. destruct m as [|[p|p|]|[p|p|]]; simpl; lia.
Qed.

Lemma shr_nonneg (mrs : shr_record) (e n : Z) :
  0 <= shr_m mrs -> 0 <= shr_m (fst (shr mrs e n)).
Proof.
  intros H. unfold shr. destruct n as [|p|p]; simpl; try assumption.
  apply iter_pos_invariant; [apply shr_1_nonneg | assumption].
Qed.

Lemma shr_fexp_nonneg (m e : Z) (l : location) :
  0 <= m -> 0 <= shr_m (fst (shr_fexp prec emax m e l)).
Proof.
  intros H. unfold shr_fexp. apply shr_nonneg. now destruct l as [|[]].
Qed.

Lemma round_nearest_even_nonneg (m : Z) (l : location) :
  0 <= m -> 0 <= round_nearest_even m l.
Proof.
  intros H. destruct l as [|[]]; simpl; try lia. destruct (Z.even m); lia.
Qed.

(** The property [nonnegative] on the representation of a number. *)
Lemma binary_round_aux_nonneg (m e : Z) (l : location) :
  0 <= m ->
  match binary_round_aux prec emax false m e l with
  | S754_zero _ => True
  | S754_infinity neg => neg = false
  | S754_finite neg _ _ => neg = false
  | S754_nan => False
  end.
Proof.
  intros H. unfold binary_round_aux.
  pose proof (shr_fexp_nonneg m e l H) as H1.
  destruct (shr_fexp prec emax m e l) as [mrs' e']. cbn [fst] in H1.
  pose proof (shr_fexp_nonneg _ e' loc_Exact
                (round_nearest_even_nonneg _ (loc_of_shr_record mrs') H1)) as H2.
  destruct (shr_fexp prec emax _ e' loc_Exact) as [mrs'' e'']. cbn [fst] in H2.
  destruct (shr_m mrs'') as [|p|p]; [exact I | | lia].
  now destruct (e'' <=? emax - prec).
Qed.

Lemma add_nonnegative (x y : float) :
  nonnegative x -> nonnegative y -> nonnegative (x + y)%float.
Proof.
  unfold nonnegative. rewrite add_spec. unfold SF64add, SFadd.
  destruct (Prim2SF x) as [sx|sx| |sx mx ex], (Prim2SF y) as [sy|sy| |sy my ey];
    try tauto; try (intros -> ->; reflexivity); try (intros _ ->; reflexivity);
    try (intros -> _; reflexivity); try (destruct sx, sy; tauto).
  intros -> ->. cbn [cond_Zopp Z.add].
  unfold binary_normalize, binary_round.
  match goal with
  | |- context [let '(_, _) := ?t in _] => destruct t as [mz ez]
  end.
  apply binary_round_aux_nonneg. lia.
Qed.

Lemma zero_nonnegative : nonnegative 0%float.
Proof. exact I. Qed.

Lemma sum_list_nonnegative (xs : list float) (a : float) :
  nonnegative a -> Forall nonnegative xs ->
  nonnegative (fold_left PrimFloat.add xs a).
Proof.
  intros Ha Hxs. revert a Ha. induction Hxs as [|x xs Hx Hxs IH]; intros a Ha; simpl.
  - assumption.
  - apply IH. now apply add_nonnegative.
Qed.

Lemma add_to_nonnegative (k : str) (v : float) (d : list (str * float)) :
  nonnegative v -> Forall nonnegative (values d) ->
  Forall nonnegative (values (add_to 0%float PrimFloat.add k v d)).
Proof.
  intros Hv Hd. induction d as [|[k' w] d IH]; simpl.
  - constructor; [|constructor]. apply add_nonnegative; [exact I | assumption].
  - unfold values in *. simpl in Hd. inversion Hd as [|? ? Hw Hd']; subst.
    destruct (str_eqb k k'); simpl; constructor; auto.
    now apply add_nonnegative.
Qed.

Lemma group_sums_nonnegative (key : Expense -> str) (es : list Expense) :
  Forall (fun e => nonnegative (amount e)) es ->
  Forall nonnegative (values (group_sums 0%float PrimFloat.add key amount es)).
Proof.
  intros H. induction es as [|e es IH] using rev_ind; [constructor|].
  rewrite group_sums_snoc. apply Forall_app in H as [H1 H2].
  apply add_to_nonnegative; [now inversion H2 | now apply IH].
Qed.

(** When no amount is negative or NaN, neither is any per-category or
    per-month sum, nor the total added from left to right: rounding never
    turns such a sum negative, and an overflow gives plus infinity. *)
Theorem sums_nonnegative (es : list Expense) :
  Forall (fun e => nonnegative (amount e)) es ->
  Forall nonnegative (values (category_summary es))
  /\ Forall nonnegative (values (monthly_summary es))
  /\ nonnegative (total_expense Until311 es).
Proof.
  intros H. split; [|split].
  - now apply group_sums_nonnegative.
  - now apply group_sums_nonnegative.
  - unfold total_expense, py_sum, sum_list.
    apply sum_list_nonnegative; [exact I|].
    apply Forall_map. exact H.
Qed.

Lemma sums_nonnegative_sample :
  Forall nonnegative (values (category_summary sample_expenses))
  /\ Forall nonnegative (values (monthly_summary sample_expenses))
  /\ nonnegative (total_expense Until311 sample_expenses).
Proof.
  apply (sums_nonnegative sample_expenses).
  repeat constructor.
Defined.

(** ** The backup menu *)

Lemma restore_backup_keeps_dir (inputs : list str) (d d' : disk) (rest : list str) :
  restore_backup inputs d = Some (d', rest) -> backup_dir d' = backup_dir d.
Proof.
  unfold restore_backup. intros H.
  destruct (is_empty (list_backups d)); [now injection H as <- _|].
  destruct inputs as [|line rest0]; [discriminate|].
  destruct (is_empty (strip line)); [now injection H as <- _|].
  destruct (py_int (strip line)) as [n|]; [|now injection H as <- _].
  destruct ((n - 1 <? 0) || _); [now injection H as <- _|].
  destruct (nth_error (list_backups d) (Z.to_nat (n - 1))) as [name|];
    [|now injection H as <- _].
  destruct (lookup name _) as [content|]; now injection H as <- _.
Qed.

(** Whatever is answered in the backup menu, no backup that was listed
    before disappears from the list: the menu offers no way to delete one. *)
Theorem backup_and_restore_flow_keeps_backups (ts : str) (inputs : list str)
  (d d' : disk) (rest : list str) :
  backup_and_restore_flow ts inputs d = Some (d', rest) ->
  Forall (fun name => In name (list_backups d')) (list_backups d).
Proof.
  unfold backup_and_restore_flow. intros H. apply Forall_forall. intros name Hin.
  destruct inputs as [|line rest0]; [discriminate|].
  destruct (str_eqb (strip line) (lit "1")).
  - injection H as <- _. apply list_backups_create_backup. now right.
  - destruct (str_eqb (strip line) (lit "2")).
    + apply restore_backup_keeps_dir in H.
      unfold list_backups in *. now rewrite H.
    + now injection H as <- _.
Qed.

Lemma backup_and_restore_flow_keeps_backups_sample :
  Forall (fun name =>
            In name (list_backups (create_backup (lit "20240106_090000") sample_disk)))
    (list_backups sample_disk).
Proof.
  apply (backup_and_restore_flow_keeps_backups (lit "20240106_090000")
           [lit "1"] sample_disk _ []).
  reflexivity.
Defined.
